(** * Terminal front end of the trading pipeline: a shallow embedding

    The coin-selection model, the dashboard model, the sparkline renderer and
    the coin look-ups of [src/main.go] are transcribed as Rocq functions.

    Numbers.  The program computes on Go's [float64].  Every function below
    is written once over an interface [Float64Ops] of the operations the
    source uses, and run in two arithmetics:
    - [binary64]: IEEE 754 double precision, through the Standard Library's
      [SpecFloat] with precision 53 and maximal exponent 1024 (signed zeros,
      infinities, NaN, rounding to nearest even);
    - [exactQ]: the rationals, i.e. the same operations without rounding.
    Go's [int] is modelled by [Z]; a slice by a list; a run-time panic
    (index out of range) by [None]. *)

From Stdlib Require Import ZArith List Bool String QArith Lia Lqa.
From Stdlib Require Import SpecFloat.
Import ListNotations.
Local Open Scope Z_scope.

(** ** The arithmetic of [float64] *)

Class Float64Ops (F : Type) : Type := {
  of_int : Z -> F;           (* float64(n), and the integer literals *)
  fadd : F -> F -> F;
  fsub : F -> F -> F;
  fmul : F -> F -> F;
  fdiv : F -> F -> F;
  fltb : F -> F -> bool;     (* x < y *)
  feqb : F -> F -> bool;     (* x == y *)
  to_int : F -> Z            (* int(x): truncation toward zero *)
}.

Definition fzero {F} `{Float64Ops F} : F := of_int 0.

Module B64.
Definition prec : Z := 53.
Definition emax : Z := 1024.

Definition of_int (n : Z) : spec_float := binary_normalize prec emax n 0 false.

Definition min_int64 : Z := - 2 ^ 63.
Definition max_int64 : Z := 2 ^ 63 - 1.

(** Go leaves [int(x)] implementation-dependent when [x] is NaN, infinite
    or outside the range of [int]; the amd64 compiler's conversion
    instruction yields the smallest [int64] there. *)
Definition to_int (x : spec_float) : Z :=
  match x with
  | S754_zero _ => 0
  | S754_finite s m e =>
      let mag := match e with
                 | Z0 => Zpos m
                 | Zpos p => Zpos m * 2 ^ Zpos p
                 | Zneg p => Zpos m / 2 ^ Zpos p
                 end in
      let v := if s then - mag else mag in
      if (min_int64 <=? v) && (v <=? max_int64) then v else min_int64
  | S754_infinity _ | S754_nan => min_int64
  end.
End B64.

#[export] Instance binary64 : Float64Ops spec_float := {
  of_int := B64.of_int;
  fadd := SFadd B64.prec B64.emax;
  fsub := SFsub B64.prec B64.emax;
  fmul := SFmul B64.prec B64.emax;
  fdiv := SFdiv B64.prec B64.emax;
  fltb := SFltb;
  feqb := SFeqb;
  to_int := B64.to_int
}.

Module ExactQ.
Definition ltb (x y : Q) : bool := negb (Qle_bool y x).
Definition to_int (x : Q) : Z := Z.quot (Qnum x) (Zpos (Qden x)).
End ExactQ.

#[export] Instance exactQ : Float64Ops Q := {
  of_int := inject_Z;
  fadd := Qplus;
  fsub := Qminus;
  fmul := Qmult;
  fdiv := Qdiv;
  fltb := ExactQ.ltb;
  feqb := Qeq_bool;
  to_int := ExactQ.to_int
}.

(** ** Available trading pairs *)

Record coin : Type := mkCoin {
  symbol : string;
  name : string;
  short : string
}.

Definition coins : list coin := [
  mkCoin "btcusdt" "Bitcoin (BTC)" "BTC";
  mkCoin "ethusdt" "Ethereum (ETH)" "ETH";
  mkCoin "solusdt" "Solana (SOL)" "SOL";
  mkCoin "bnbusdt" "Binance Coin (BNB)" "BNB";
  mkCoin "xrpusdt" "Ripple (XRP)" "XRP";
  mkCoin "dogeusdt" "Dogecoin (DOGE)" "DOGE"
]%string.

(** [len(s)] as a Go [int]. *)
Definition len {A} (s : list A) : Z := Z.of_nat (List.length s).

(** [s[i]]: [None] is the index-out-of-range panic. *)
Definition index {A} (s : list A) (i : Z) : option A :=
  if (0 <=? i) && (i <? len s) then nth_error s (Z.to_nat i) else None.

(** ** Helper functions *)

Fixpoint lookupCoin (field : coin -> string) (cs : list coin) (sym : string) : string :=
  match cs with
  | [] => sym
  | c :: cs' => if String.eqb (symbol c) sym then field c else lookupCoin field cs' sym
  end.

Definition GetCoinName (sym : string) : string := lookupCoin name coins sym.
Definition GetCoinShort (sym : string) : string := lookupCoin short coins sym.

(** ** Messages and commands of the terminal framework *)

(** [time.Time]: an instant counted in nanoseconds from Go's zero instant,
    so that the zero value [time.Time{}] is [0]. *)
Definition Time : Type := Z.
Definition zeroTime : Time := 0.
Definition IsZero (t : Time) : bool := t =? 0.

Section Models.
Context {F : Type} `{Float64Ops F}.
(** The type behind [*Server] lives in another file of the repository. *)
Variable Server : Type.

(** PriceData holds current price information *)
Record PriceData : Type := mkPriceData {
  Price : F;
  PrevPrice : F;
  High : F;
  Low : F;
  MovingAverage : F;
  Change : F;
  ChangePercent : F;
  UpdatedAt : Time
}.

(** The zero value [PriceData{}]. *)
Definition zeroPriceData : PriceData :=
  mkPriceData fzero fzero fzero fzero fzero fzero fzero zeroTime.

(** [tea.Msg]: a key press (with its [String()]), [tickMsg], [priceMsg],
    or any message the models do not know. *)
Inductive Msg : Type :=
| KeyMsg (key : string)
| tickMsg (t : Time)
| priceMsg (d : PriceData)
| otherMsg.

(** *** Coin selection model *)

Record selectModel : Type := mkSelectModel {
  cursor : Z;
  selected : string;
  done : bool
}.

Inductive selectCmd : Type := selectNil | selectQuit.

Definition selectUpdate (m : selectModel) (msg : Msg)
  : option (selectModel * selectCmd) :=
  match msg with
  | KeyMsg key =>
      if (key =? "ctrl+c")%string || (key =? "q")%string then
        Some (mkSelectModel (cursor m) (selected m) true, selectQuit)
      else if (key =? "up")%string || (key =? "k")%string then
        Some (if 0 <? cursor m
              then mkSelectModel (cursor m - 1) (selected m) (done m)
              else m, selectNil)
      else if (key =? "down")%string || (key =? "j")%string then
        Some (if cursor m <? len coins - 1
              then mkSelectModel (cursor m + 1) (selected m) (done m)
              else m, selectNil)
      else if (key =? "enter")%string || (key =? " ")%string then
        match index coins (cursor m) with
        | Some c => Some (mkSelectModel (cursor m) (symbol c) true, selectQuit)
        | None => None
        end
      else Some (m, selectNil)
  | _ => Some (m, selectNil)
  end.

(** The model [RunTUI] starts the program with. *)
Definition initialSelectModel : selectModel := mkSelectModel 0 "" false.

(** The framework feeds the messages to [Update] one after the other; a
    panic ends the run. *)
Fixpoint selectRun (m : selectModel) (msgs : list Msg) : option selectModel :=
  match msgs with
  | [] => Some m
  | msg :: rest =>
      match selectUpdate m msg with
      | Some (m', _) => selectRun m' rest
      | None => None
      end
  end.

(** *** Dashboard model *)

Record dashboardModel : Type := mkDashboardModel {
  dsymbol : string;
  coinName : string;
  coinShort : string;
  data : PriceData;
  history : list F;
  server : Server;
  quitting : bool
}.

Definition newDashboardModel (sym : string) (srv : Server) : dashboardModel :=
  mkDashboardModel sym (GetCoinName sym) (GetCoinShort sym)
                   zeroPriceData [] srv false.

(** What the closure of [fetchPrice] reads when it runs: the server's
    price, the three statistics and the clock. *)
Record Reading : Type := mkReading {
  rPrice : F;
  rMovingAverage : F;
  rHigh : F;
  rLow : F;
  rNow : Time
}.

(** The message the command returned by [m.fetchPrice()] produces. *)
Definition fetchPrice (m : dashboardModel) (r : Reading) : PriceData :=
  let price := rPrice r in
  let ma := rMovingAverage r in
  let high := rHigh r in
  let low := rLow r in
  let '(change, changePercent) :=
    if fltb fzero (Price (data m)) then
      let change := fsub price (Price (data m)) in
      (change, fmul (fdiv change (Price (data m))) (of_int 100))
    else (fzero, fzero) in
  mkPriceData price (Price (data m)) high low ma change changePercent (rNow r).

Inductive Cmd : Type :=
| cmdNil
| cmdQuit
| cmdFetchAndTick (captured : dashboardModel).  (* tea.Batch(m.fetchPrice(), tickCmd()) *)

Definition historyCap : Z := 20.

Definition Update (m : dashboardModel) (msg : Msg) : dashboardModel * Cmd :=
  match msg with
  | KeyMsg key =>
      if (key =? "ctrl+c")%string || (key =? "q")%string then
        (mkDashboardModel (dsymbol m) (coinName m) (coinShort m) (data m)
                          (history m) (server m) true, cmdQuit)
      else (m, cmdNil)
  | tickMsg _ => (m, cmdFetchAndTick m)
  | priceMsg d =>
      let h :=
        if fltb fzero (Price d) then
          let h1 := history m ++ [Price d] in
          if historyCap <? len h1 then tl h1 else h1
        else history m in
      (mkDashboardModel (dsymbol m) (coinName m) (coinShort m) d h
                        (server m) (quitting m), cmdNil)
  | otherMsg => (m, cmdNil)
  end.

Definition step (m : dashboardModel) (msg : Msg) : dashboardModel :=
  fst (Update m msg).

Definition run (m : dashboardModel) (msgs : list Msg) : dashboardModel :=
  fold_left step msgs m.

(** *** Sparkline *)

Inductive Style : Type := labelStyle | upStyle | downStyle | valueStyle.

(** [style.Render(text)], the text being a string or one rune. *)
Inductive Rendered : Type :=
| RenderString (st : Style) (text : string)
| RenderRune (st : Style) (r : Z).

(** Sparkline chars: the block elements U+2581 .. U+2588. *)
Definition chars : list Z :=
  [0x2581; 0x2582; 0x2583; 0x2584; 0x2585; 0x2586; 0x2587; 0x2588].

Definition waiting : list Rendered :=
  [RenderString labelStyle "waiting for data..."].

(** Find min/max: one round of the first loop. *)
Definition minmaxStep (mm : F * F) (v : F) : F * F :=
  let '(mn, mx) := mm in
  let mn := if fltb v mn then v else mn in
  let mx := if fltb mx v then v else mx in
  (mn, mx).

Definition minmax (h0 : F) (h : list F) : F * F :=
  fold_left minmaxStep h (h0, h0).

(** [rang := max - min; if rang == 0 { rang = 1 }] *)
Definition sparkRange (mn mx : F) : F :=
  let rang := fsub mx mn in
  if feqb rang fzero then of_int 1 else rang.

(** The index into [chars] computed for the value [v]. *)
Definition glyphIndex (mn rang v : F) : Z :=
  let normalized := fdiv (fsub v mn) rang in
  let idx := to_int (fmul normalized (of_int (len chars - 1))) in
  if len chars <=? idx then len chars - 1 else idx.

(** Color based on trend; [prev] is [m.history[i-1]] when [i > 0]. *)
Definition trendStyle (prev : option F) (v : F) : Style :=
  match prev with
  | Some p => if fltb p v then upStyle
              else if fltb v p then downStyle
              else valueStyle
  | None => valueStyle
  end.

(** The second loop, from the round that handles the head of [vs]. *)
Fixpoint sparkLoop (mn rang : F) (prev : option F) (vs : list F)
  : option (list Rendered) :=
  match vs with
  | [] => Some []
  | v :: rest =>
      match index chars (glyphIndex mn rang v) with
      | None => None
      | Some char =>
          match sparkLoop mn rang (Some v) rest with
          | None => None
          | Some spark => Some (RenderRune (trendStyle prev v) char :: spark)
          end
      end
  end.

Definition renderSparkline (m : dashboardModel) : option (list Rendered) :=
  match history m with
  | [] | [_] => Some waiting
  | h0 :: _ =>
      let '(mn, mx) := minmax h0 (history m) in
      sparkLoop mn (sparkRange mn mx) None (history m)
  end.

End Models.

Arguments zeroPriceData {F _}.
Arguments mkDashboardModel {F Server}.
Arguments dsymbol {F Server}.
Arguments coinName {F Server}.
Arguments coinShort {F Server}.
Arguments data {F Server}.
Arguments history {F Server}.
Arguments server {F Server}.
Arguments quitting {F Server}.
Arguments newDashboardModel {F _ Server}.
Arguments renderSparkline {F _ Server}.
Arguments run {F _ Server}.
Arguments step {F _ Server}.
Arguments Update {F _ Server}.
Arguments fetchPrice {F _ Server}.

(** ** The aggregator

    [Server], with [UpdatePrice] and the statistics the dashboard reads, is
    defined in files of the repository that are not part of [src/]. *)

Section Aggregator.
Context {F : Type} `{Float64Ops F}.

(** Modelled from the spec: the Tick of section 3, consumed by the missing
    Aggregator. *)
Record Tick : Type := mkTick {
  price : F;
  observedAt : Time
}.

(** Modelled from the spec: the Snapshot of section 3, the statistics the
    missing Aggregator holds. *)
Record Snapshot : Type := mkSnapshot {
  sPrice : F;
  sPreviousPrice : F;
  sHigh : F;
  sLow : F;
  sMovingAverage : F;
  sChange : F;
  sChangePercent : F;
  sUpdatedAt : Time
}.

(** Modelled from the spec: the Aggregator of section 4.2, whose source is
    missing.  It holds the Snapshot, the RollingWindow with its capacity N,
    and whether a tick has been observed. *)
Record Aggregator : Type := mkAggregator {
  capacity : nat;
  snapshot : Snapshot;
  window : list F;
  observed : bool
}.

(** Modelled from the spec: the state before the first tick of the missing
    Aggregator, every field zero-valued and [updatedAt] unset. *)
Definition newAggregator (N : nat) : Aggregator :=
  mkAggregator N
    (mkSnapshot fzero fzero fzero fzero fzero fzero fzero zeroTime) [] false.

(** Modelled from the spec: the arithmetic mean the missing Aggregator
    recomputes over the RollingWindow contents. *)
Definition mean (w : list F) : F :=
  fdiv (fold_left fadd w fzero) (of_int (len w)).

(** Modelled from the spec: appending to the RollingWindow of the missing
    Aggregator, evicting the oldest entry past capacity. *)
Definition push (N : nat) (w : list F) (p : F) : list F :=
  let w1 := w ++ [p] in
  if (N <? List.length w1)%nat then tl w1 else w1.

(** Modelled from the spec: [Ingest] of the missing Aggregator, the steps
    of section 4.2 in their order; [now] is the clock read at the end. *)
Definition Ingest (a : Aggregator) (t : Tick) (now : Time) : Aggregator :=
  let s := snapshot a in
  let previousPrice := sPrice s in
  let p := price t in
  let high := if observed a
              then (if fltb (sHigh s) p then p else sHigh s) else p in
  let low := if observed a
             then (if fltb p (sLow s) then p else sLow s) else p in
  let change := fsub p previousPrice in
  let changePercent :=
    if fltb fzero previousPrice
    then fmul (fdiv change previousPrice) (of_int 100) else fzero in
  let w := push (capacity a) (window a) p in
  mkAggregator (capacity a)
    (mkSnapshot p previousPrice high low (mean w) change changePercent now)
    w true.

(** Modelled from the spec: [ReadSnapshot] of the missing Aggregator. *)
Definition ReadSnapshot (a : Aggregator) : Snapshot := snapshot a.

(** Modelled from the spec: the missing Aggregator applies the ticks in the
    order the feed emitted them (section 5); the clock value of a tick's
    ingestion is taken to be its observation time. *)
Definition ingestAll (a : Aggregator) (ts : list Tick) : Aggregator :=
  fold_left (fun a t => Ingest a t (observedAt t)) ts a.

End Aggregator.

Arguments Tick F : clear implicits.
Arguments Snapshot F : clear implicits.
Arguments Aggregator F : clear implicits.

(** ** Vocabulary of the properties *)

(** The cursor indexes the table of coins. *)
Definition cursorOk (m : selectModel) : Prop := 0 <= cursor m <= len coins - 1.

Definition isPriceMsg {F} (msg : @Msg F) : bool :=
  match msg with priceMsg _ => true | _ => false end.

(** The last [n] elements of a list. *)
Definition lastn {A} (n : nat) (l : list A) : list A :=
  skipn (List.length l - n) l.

(** Ticks with the given integer prices. *)
Definition ticksOf {F} `{Float64Ops F} (prices : list Z) : list (Tick F) :=
  map (fun z => mkTick (of_int z) 1) prices.

(** Once a tick has been observed, high and low are values the comparison
    orders. *)
Definition seenOrdered {F} (ordered : F -> Prop) (a : Aggregator F) : Prop :=
  observed a = true ->
  ordered (sHigh (snapshot a)) /\ ordered (sLow (snapshot a)).

Section Scenario.
Context {F : Type} `{Float64Ops F}.

(** The decimal [n / 10^4]. *)
Definition decimal4 (n : Z) : F := fdiv (of_int n) (of_int 10000).

(** What the scenario expects of the snapshot; [==] and [<] are the
    comparisons of the arithmetic, and [changePercent] is 15.789 to three
    decimals. *)
Definition scenarioExpected (s : Snapshot F) : Prop :=
  feqb (sHigh s) (of_int 110) = true /\
  feqb (sLow s) (of_int 95) = true /\
  feqb (sPrice s) (of_int 110) = true /\
  feqb (sPreviousPrice s) (of_int 95) = true /\
  feqb (sChange s) (of_int 15) = true /\
  fltb (decimal4 157885) (sChangePercent s) = true /\
  fltb (sChangePercent s) (decimal4 157895) = true /\
  sMovingAverage s = mean (map of_int [100; 105; 95; 110]) /\
  feqb (sMovingAverage s) (fdiv (of_int 410) (of_int 4)) = true.

Definition scenario (N : nat) : Snapshot F :=
  ReadSnapshot (ingestAll (newAggregator N) (ticksOf [100; 105; 95; 110])).

End Scenario.

(** The order of IEEE numbers: every value but NaN is ordered. *)
Module B64Order.

Definition notNaN (x : spec_float) : Prop := x <> S754_nan.
Definition le (x y : spec_float) : Prop := SFleb x y = true.

(** A rank whose lexicographic order is the order of the numbers. *)
Definition rank (x : spec_float) : Z * Z * Z :=
  match x with
  | S754_nan => (3, 0, 0)
  | S754_infinity true => (-2, 0, 0)
  | S754_finite true m e => (-1, - e, - Zpos m)
  | S754_zero _ => (0, 0, 0)
  | S754_finite false m e => (1, e, Zpos m)
  | S754_infinity false => (2, 0, 0)
  end.

Definition lexle (a b : Z * Z * Z) : Prop :=
  let '(a1, a2, a3) := a in
  let '(b1, b2, b3) := b in
  a1 < b1 \/ (a1 = b1 /\ (a2 < b2 \/ (a2 = b2 /\ a3 <= b3))).

Definition lexlt (a b : Z * Z * Z) : Prop :=
  let '(a1, a2, a3) := a in
  let '(b1, b2, b3) := b in
  a1 < b1 \/ (a1 = b1 /\ (a2 < b2 \/ (a2 = b2 /\ a3 < b3))).

End B64Order.

Section Bracket.
Context {F : Type} `{Float64Ops F}.
Variable le : F -> F -> Prop.

(** After the ticks [ts1] and then [t], the state [a] brackets [t]'s price
    between low and high; after the further ticks [ts2], in the state [b],
    high has not decreased and low has not increased; and a first tick sets
    both to its price. *)
Definition bracketed (N : nat) (ts1 : list (Tick F)) (t : Tick F)
           (ts2 : list (Tick F)) : Prop :=
  let a := ReadSnapshot (ingestAll (newAggregator N) (ts1 ++ [t])) in
  let b := ReadSnapshot (ingestAll (newAggregator N) ((ts1 ++ [t]) ++ ts2)) in
  let first := ReadSnapshot (ingestAll (newAggregator N) [t]) in
  sPrice a = price t /\
  le (sLow a) (price t) /\ le (price t) (sHigh a) /\
  le (sHigh a) (sHigh b) /\ le (sLow b) (sLow a) /\
  sHigh first = price t /\ sLow first = price t.

End Bracket.

(** ** The rest of the terminal front end *)

(** A Go string literal with characters outside ASCII, as its UTF-8 bytes. *)
Definition utf8 (bytes : list nat) : string :=
  fold_right (fun b s => String (Ascii.ascii_of_nat b) s) EmptyString bytes.

Definition nl : string := utf8 [10%nat].

(** The cursor mark of the selected row: U+25B8 and a space. *)
Definition cursorMark : string := utf8 [226; 150; 184; 32]%nat.

(** The help line: a line feed, then the two arrows U+2191 and U+2193 and
    the bullets U+2022 between the three hints. *)
Definition selectHelp : string :=
  (nl ++ utf8 [226; 134; 145]%nat ++ "/" ++ utf8 [226; 134; 147]%nat
      ++ ": navigate " ++ utf8 [226; 128; 162]%nat
      ++ " enter: select " ++ utf8 [226; 128; 162]%nat ++ " q: quit")%string.

(** The styles of the [var] block besides the four of the sparkline. *)
Inductive FrameStyle : Type :=
  titleStyle | itemStyle | selectedStyle | helpStyle
| boxStyle | priceStyle | headerStyle.

(** A piece of the string a [View] returns: [style.Render(text)], or text
    appended as it is. *)
Inductive Piece : Type :=
| Styled (st : FrameStyle) (text : string)
| Plain (text : string).

(** The rounds of the loop of [selectModel.View] from index [i] on. *)
Fixpoint viewRows (cur : Z) (i : Z) (cs : list coin) : list Piece :=
  match cs with
  | [] => []
  | c :: rest =>
      (if cur =? i
       then Styled selectedStyle (cursorMark ++ name c)
       else Styled itemStyle ("  " ++ name c))
      :: Plain nl :: viewRows cur (i + 1) rest
  end.

Definition selectView (m : selectModel) : list Piece :=
  Styled titleStyle "Select Cryptocurrency to Track" :: Plain (nl ++ nl)
    :: viewRows (cursor m) 0 coins ++ [Styled helpStyle selectHelp].

(** A Go result [(value, error)]. *)
Inductive result (A : Type) : Type :=
| Ok (value : A)
| Err (message : string).
Arguments Ok {A}.
Arguments Err {A}.

(** [RunTUI], given what [p.Run()] returned for the program started on
    [selectModel{cursor: 0}]. *)
Definition RunTUI (ran : result selectModel) : result string :=
  match ran with
  | Err e => Err e
  | Ok final =>
      if (selected final =? "")%string then Err "no coin selected"
      else Ok (selected final)
  end.

Section DashboardView.
Context {F : Type} `{Float64Ops F} {Server : Type}.


(** What [View] returns, as a tree: literals, [fmt.Sprintf] calls with
    their format and arguments left unformatted, and [Render] calls. *)
#[local] Unset Elimination Schemes.
Inductive Doc : Type :=
| Text (s : string)
| Sprintf (format : string) (args : list Arg)
| Frame (st : FrameStyle) (d : Doc)
| Tint (st : Style) (d : Doc)
| Sparkline (pieces : list Rendered)
| Concat (ds : list Doc)
with Arg : Type :=
| FloatArg (x : F)
| StringArg (s : string)
| DocArg (d : Doc).
#[local] Set Elimination Schemes.


(** Change indicator: U+25B2 up, U+25BC down, U+2501 unchanged. *)
Definition changeStr (d : PriceData) : Doc :=
  if fltb fzero (Change d) then
    Tint upStyle (Sprintf (utf8 [226; 150; 178]%nat ++ " +%.2f (+%.2f%%)")
                          [FloatArg (Change d); FloatArg (ChangePercent d)])
  else if fltb (Change d) fzero then
    Tint downStyle (Sprintf (utf8 [226; 150; 188]%nat ++ " %.2f (%.2f%%)")
                            [FloatArg (Change d); FloatArg (ChangePercent d)])
  else
    Tint labelStyle (Text (utf8 [226; 148; 129]%nat ++ " 0.00 (0.00%)")).



(** The direction the change indicator shows. *)
Inductive Direction : Type := Up | Down | Unchanged.

Definition shownDirection (d : Doc) : option Direction :=
  match d with
  | Tint upStyle (Sprintf _ _) => Some Up
  | Tint downStyle (Sprintf _ _) => Some Down
  | Tint labelStyle (Text _) => Some Unchanged
  | _ => None
  end.

End DashboardView.

Definition isQuitKey {F} (msg : @Msg F) : bool :=
  match msg with
  | KeyMsg key => (key =? "ctrl+c")%string || (key =? "q")%string
  | _ => false
  end.

Definition isSelectKey {F} (msg : @Msg F) : bool :=
  match msg with
  | KeyMsg key => (key =? "enter")%string || (key =? " ")%string
  | _ => false
  end.

Section Polling.
Context {F : Type} `{Float64Ops F} {Server : Type}.

(** What the framework does with the command of a tick: it runs the closure
    of [fetchPrice], which reads the server ([r]) and yields a message. *)
Definition runCmd (c : Cmd Server) (r : Reading) : option Msg :=
  match c with
  | cmdFetchAndTick _ captured => Some (priceMsg (fetchPrice captured r))
  | _ => None
  end.

(** One polling round: the tick message, then the message of its command. *)
Definition poll (m : dashboardModel Server) (tr : Time * Reading)
  : dashboardModel Server :=
  let '(m1, c) := Update m (tickMsg (fst tr)) in
  match runCmd c (snd tr) with
  | Some msg => step m1 msg
  | None => m1
  end.

Definition pollAll (m : dashboardModel Server) (trs : list (Time * Reading))
  : dashboardModel Server :=
  fold_left poll trs m.

(** The prices a message sequence adds to the history. *)
Definition historyPrices (msgs : list (@Msg F)) : list F :=
  flat_map (fun msg => match msg with
                       | priceMsg d => if fltb fzero (Price d) then [Price d] else []
                       | _ => []
                       end) msgs.

(** The data of the last price message, if any. *)
Fixpoint lastPriceData (msgs : list (@Msg F)) (d0 : PriceData) : PriceData :=
  match msgs with
  | [] => d0
  | priceMsg d :: rest => lastPriceData rest d
  | _ :: rest => lastPriceData rest d0
  end.

End Polling.

(** What a run of the selection program keeps true. *)
Definition selectionOk (m : selectModel) : Prop :=
  cursorOk m /\
  (selected m = ""%string \/ exists c, In c coins /\ selected m = symbol c) /\
  (selected m <> ""%string -> done m = true).

Definition isDownKey {F} (msg : @Msg F) : bool :=
  match msg with
  | KeyMsg key => (key =? "down")%string || (key =? "j")%string
  | _ => false
  end.

Definition isUpKey {F} (msg : @Msg F) : bool :=
  match msg with
  | KeyMsg key => (key =? "up")%string || (key =? "k")%string
  | _ => false
  end.

Definition isSelectedRow (p : Piece) : bool :=
  match p with
  | Styled selectedStyle _ => true
  | _ => false
  end.

(** The style of a rendered piece of the sparkline. *)
Definition styleOf (p : Rendered) : Style :=
  match p with
  | RenderString st _ => st
  | RenderRune st _ => st
  end.

(** A rendered piece is one glyph of the table [chars]. *)
Definition isGlyph (p : Rendered) : Prop :=
  exists st r, p = RenderRune st r /\ In r chars.

(** Doubles among the values of [spec_float]. *)
Module B64Num.

(** The smallest exponent of a double. *)
Definition emin : Z := - 1074.

(** [x] is a double: if finite, its mantissa and exponent are those of a
    binary64 number. *)
Definition isDouble (x : spec_float) : Prop :=
  valid_binary B64.prec B64.emax x = true.

(** A number other than zero and NaN, of sign [s]. *)
Definition signedNonzero (s : bool) (x : spec_float) : Prop :=
  (exists m e, x = S754_finite s m e) \/ x = S754_infinity s.

(** The integer [n] with [x = n * 2^ez], for a finite [x] of exponent at
    least [ez]. *)
Definition scaled (s : bool) (m : positive) (e ez : Z) : Z :=
  cond_Zopp s (Zpos m * 2 ^ (e - ez)).

End B64Num.

(** * Properties *)

(** ** Coin look-ups *)

Lemma lookupCoin_miss (field : coin -> string) (cs : list coin) (sym : string) :
  (forall c, In c cs -> symbol c <> sym) -> lookupCoin field cs sym = sym.
Proof.
  induction cs as [|c cs IH]; intros Hno; simpl; [reflexivity|].
  destruct (String.eqb_spec (symbol c) sym) as [Heq|_].
  - exfalso. apply (Hno c); [now left | exact Heq].
  - apply IH. intros c' Hin. apply Hno. now right.
Qed.

Lemma lookupCoin_hit (field : coin -> string) (cs : list coin) (c : coin) :
  NoDup (map symbol cs) -> In c cs -> lookupCoin field cs (symbol c) = field c.
Proof.
  induction cs as [|c0 cs IH]; intros Hnd Hin; [destruct Hin|].
  simpl. inversion Hnd as [|? ? Hfresh Hnd']; subst.
  destruct Hin as [->|Hin].
  - now rewrite String.eqb_refl.
  - destruct (String.eqb_spec (symbol c0) (symbol c)) as [Heq|_].
    + exfalso. apply Hfresh. rewrite Heq. now apply in_map.
    + now apply IH.
Qed.

Lemma coins_symbols_NoDup : NoDup (map symbol coins).
Proof.
  simpl. repeat constructor; simpl; intuition discriminate.
Qed.

(** C10: for every symbol, [GetCoinName] and [GetCoinShort] return the name
    and the short label of the coin of the table that carries the symbol,
    and the symbol itself, unchanged, when no coin of the table carries it. *)
Theorem GetCoin_lookup (sym : string) :
  (forall c, In c coins -> symbol c = sym ->
     GetCoinName sym = name c /\ GetCoinShort sym = short c) /\
  ((forall c, In c coins -> symbol c <> sym) ->
     GetCoinName sym = sym /\ GetCoinShort sym = sym).
Proof.
  split.
  - intros c Hin <-. unfold GetCoinName, GetCoinShort.
    split; apply lookupCoin_hit; auto using coins_symbols_NoDup.
  - intros Hno. unfold GetCoinName, GetCoinShort.
    split; apply lookupCoin_miss; exact Hno.
Qed.

Lemma GetCoin_lookup_witness :
  (GetCoinName "solusdt"%string = "Solana (SOL)"%string /\ GetCoinShort "solusdt"%string = "SOL"%string) /\
  (GetCoinName "ltcusdt"%string = "ltcusdt"%string /\ GetCoinShort "ltcusdt"%string = "ltcusdt"%string).
Proof.
  split.
  - apply (proj1 (GetCoin_lookup "solusdt"%string)
             (mkCoin "solusdt"%string "Solana (SOL)"%string "SOL"%string)).
    + simpl. tauto.
    + reflexivity.
  - apply (proj2 (GetCoin_lookup "ltcusdt"%string)).
    intros c Hin. simpl in Hin.
    decompose [or] Hin; subst; simpl; try discriminate; contradiction.
Defined.

(** ** Coin selection *)

Section SelectProperties.
Context {F : Type}.

Lemma index_coins_in_range (i : Z) :
  0 <= i <= len coins - 1 -> exists c, index coins i = Some c.
Proof.
  change (len coins - 1) with 5. intros Hi.
  assert (Hc : i = 0 \/ i = 1 \/ i = 2 \/ i = 3 \/ i = 4 \/ i = 5) by lia.
  decompose [or] Hc; subst; eexists; reflexivity.
Qed.

Lemma selectUpdate_keeps_cursor (m : selectModel) (msg : @Msg F) :
  cursorOk m ->
  exists m' c, selectUpdate m msg = Some (m', c) /\ cursorOk m'.
Proof.
  unfold cursorOk. change (len coins - 1) with 5. intros Hm.
  destruct msg as [key| | |]; simpl; try (do 2 eexists; split; [reflexivity|exact Hm]).
  destruct ((key =? "ctrl+c")%string || (key =? "q")%string).
  { do 2 eexists; split; [reflexivity|exact Hm]. }
  destruct ((key =? "up")%string || (key =? "k")%string).
  { do 2 eexists; split; [reflexivity|].
    destruct (Z.ltb_spec 0 (cursor m)); simpl; lia. }
  destruct ((key =? "down")%string || (key =? "j")%string).
  { do 2 eexists; split; [reflexivity|].
    change (len coins - 1) with 5.
    destruct (Z.ltb_spec (cursor m) 5); simpl; lia. }
  destruct ((key =? "enter")%string || (key =? " ")%string).
  { destruct (index_coins_in_range (cursor m)) as [c Hc].
    - change (len coins - 1) with 5. exact Hm.
    - rewrite Hc. do 2 eexists; split; [reflexivity|exact Hm]. }
  do 2 eexists; split; [reflexivity|exact Hm].
Qed.

Lemma selectRun_keeps_cursor (msgs : list (@Msg F)) (m : selectModel) :
  cursorOk m -> exists m', selectRun m msgs = Some m' /\ cursorOk m'.
Proof.
  revert m. induction msgs as [|msg msgs IH]; intros m Hm; simpl.
  - now exists m.
  - destruct (selectUpdate_keeps_cursor m msg Hm) as (m1 & c & -> & Hm1).
    now apply IH.
Qed.

(** C8: for every sequence of messages applied to the coin-selection model
    that starts at cursor 0, the run never panics and the cursor it reaches
    satisfies 0 <= cursor <= len(coins) - 1 = 5, so that [coins[cursor]]
    is in range. *)
Theorem cursor_in_bounds (msgs : list (@Msg F)) :
  exists m, selectRun initialSelectModel msgs = Some m /\
            0 <= cursor m <= len coins - 1 /\
            len coins - 1 = 5 /\
            exists c, index coins (cursor m) = Some c.
Proof.
  destruct (selectRun_keeps_cursor msgs initialSelectModel) as (m & Hrun & Hm).
  - unfold cursorOk. simpl. change (len coins - 1) with 5. lia.
  - exists m. repeat split; try apply Hm; auto using index_coins_in_range.
Qed.

End SelectProperties.

(** ** Dashboard state *)

Section DashboardProperties.
Context {F : Type} `{Float64Ops F} {Server : Type}.

Lemma step_not_price (m : dashboardModel Server) (msg : Msg) :
  isPriceMsg msg = false ->
  data (step m msg) = data m /\ history (step m msg) = history m.
Proof.
  destruct msg as [key| | |]; simpl; intros Hp; try discriminate; auto.
  unfold step; simpl.
  destruct ((key =? "ctrl+c")%string || (key =? "q")%string); auto.
Qed.

(** C4: a freshly constructed dashboard model has an empty history and the
    all-zero price data: price, previous price, high, low, moving average,
    change and change percent are zero and [UpdatedAt] is the unset (zero)
    time; the state stays so for as long as no price message (no fetched
    tick) has been applied. *)
Theorem fresh_dashboard_is_zero (sym : string) (srv : Server) (msgs : list Msg) :
  forallb (fun msg => negb (isPriceMsg msg)) msgs = true ->
  let m := run (newDashboardModel sym srv) msgs in
  let d := data m in
  Price d = fzero /\ PrevPrice d = fzero /\ High d = fzero /\ Low d = fzero /\
  MovingAverage d = fzero /\ Change d = fzero /\ ChangePercent d = fzero /\
  IsZero (UpdatedAt d) = true /\
  history m = [] /\
  data (newDashboardModel sym srv) = zeroPriceData /\
  history (newDashboardModel sym srv) = [].
Proof.
  intros Hmsgs.
  assert (Hinv : forall m0 : dashboardModel Server,
             data (run m0 msgs) = data m0 /\ history (run m0 msgs) = history m0).
  { induction msgs as [|msg rest IH]; intros m0; [now split|].
    simpl in Hmsgs. apply andb_prop in Hmsgs as [Hmsg Hrest].
    apply negb_true_iff in Hmsg.
    unfold run in *; simpl.
    destruct (IH Hrest (step m0 msg)) as [Hd Hh].
    destruct (step_not_price m0 msg Hmsg) as [Hd' Hh'].
    split; congruence. }
  destruct (Hinv (newDashboardModel sym srv)) as [Hd Hh].
  cbv zeta. rewrite Hd, Hh. simpl. repeat split; reflexivity.
Qed.

Lemma len_app1 {A} (l : list A) (x : A) : len (l ++ [x]) = len l + 1.
Proof. unfold len. rewrite length_app. simpl. lia. Qed.

Lemma len_tl {A} (l : list A) : l <> [] -> len (tl l) = len l - 1.
Proof. destruct l; [congruence|]. intros _. unfold len. cbn [List.length tl]. lia. Qed.

Lemma step_history_bounded (m : dashboardModel Server) (msg : Msg) :
  len (history m) <= historyCap -> len (history (step m msg)) <= historyCap.
Proof.
  intros Hm. destruct msg as [key| |d|]; unfold step; simpl; auto.
  - destruct ((key =? "ctrl+c")%string || (key =? "q")%string); auto.
  - destruct (fltb fzero (Price d)); auto.
    destruct (Z.ltb_spec historyCap (len (history m ++ [Price d]))) as [Hgt|Hle]; auto.
    rewrite len_tl by (now destruct (history m)).
    rewrite len_app1 in *. lia.
Qed.

Lemma run_history_bounded (msgs : list Msg) (m : dashboardModel Server) :
  len (history m) <= historyCap -> len (history (run m msgs)) <= historyCap.
Proof.
  revert m. induction msgs as [|msg rest IH]; intros m Hm; [exact Hm|].
  unfold run in *; simpl. apply IH. now apply step_history_bounded.
Qed.

(** C3: after every sequence of messages applied to a fresh dashboard model
    the history window holds at most N = 20 entries; a price message with a
    price above zero appends its price and, when the window already holds 20
    entries, drops the oldest one (the head); any other message leaves the
    window as it is. *)
Theorem history_window_bounded (sym : string) (srv : Server) (msgs : list Msg) :
  let m := run (newDashboardModel sym srv) msgs in
  historyCap = 20 /\
  len (history m) <= historyCap /\
  (forall d, fltb fzero (Price d) = true ->
     history (step m (priceMsg d)) =
       if len (history m) <? historyCap
       then history m ++ [Price d]
       else tl (history m) ++ [Price d]) /\
  (forall msg, (forall d, msg = priceMsg d -> fltb fzero (Price d) = false) ->
     history (step m msg) = history m).
Proof.
  intros m.
  assert (Hm : len (history m) <= historyCap).
  { apply run_history_bounded. unfold historyCap, len. simpl. lia. }
  split; [reflexivity|]. split; [exact Hm|]. split.
  - intros d Hd. unfold step; simpl. rewrite Hd.
    rewrite len_app1.
    destruct (Z.ltb_spec historyCap (len (history m) + 1));
      destruct (Z.ltb_spec (len (history m)) historyCap); try lia; auto.
    destruct (history m) as [|h0 hs] eqn:Hh; [|reflexivity].
    unfold historyCap, len in *; simpl in *; lia.
  - intros msg Hmsg. destruct msg as [key| |d|]; unfold step; simpl; auto.
    + destruct ((key =? "ctrl+c")%string || (key =? "q")%string); auto.
    + now rewrite (Hmsg d eq_refl).
Qed.

(** The message of [fetchPrice] becomes the model's data as it is. *)
Lemma step_priceMsg_data (m : dashboardModel Server) (d : PriceData) :
  data (step m (priceMsg d)) = d.
Proof. reflexivity. Qed.

(** The two assignments of the guarded block, field by field. *)
Lemma fetchPrice_fields (m : dashboardModel Server) (r : Reading) :
  let prev := Price (data m) in
  let change := fsub (rPrice r) prev in
  fetchPrice m r =
    mkPriceData (rPrice r) prev (rHigh r) (rLow r) (rMovingAverage r)
      (if fltb fzero prev then change else fzero)
      (if fltb fzero prev then fmul (fdiv change prev) (of_int 100) else fzero)
      (rNow r).
Proof.
  cbv zeta. unfold fetchPrice. now destruct (fltb fzero (Price (data m))).
Qed.

(** C1, as amended: after every price update applied to the dashboard state,
    change == price - previousPrice whenever previousPrice > 0, and change
    is 0 whenever previousPrice > 0 does not hold (as before the first
    price, when previousPrice is 0). *)
Theorem change_is_guarded_difference
        (captured m : dashboardModel Server) (r : Reading) :
  let d := data (step m (priceMsg (fetchPrice captured r))) in
  Price d = rPrice r /\
  PrevPrice d = Price (data captured) /\
  (fltb fzero (PrevPrice d) = true -> Change d = fsub (Price d) (PrevPrice d)) /\
  (fltb fzero (PrevPrice d) = false -> Change d = fzero).
Proof.
  cbv zeta. rewrite step_priceMsg_data. unfold fetchPrice.
  destruct (fltb fzero (Price (data captured))) eqn:Hpos; simpl;
    rewrite ?Hpos; repeat split; intros; congruence.
Qed.

End DashboardProperties.

Lemma fresh_dashboard_is_zero_witness :
  let m : dashboardModel (F := spec_float) unit :=
    run (newDashboardModel "ethusdt"%string tt)
        [tickMsg 5; KeyMsg "x"%string; otherMsg] in
  Price (data m) = S754_zero false /\ IsZero (UpdatedAt (data m)) = true /\
  history m = [].
Proof.
  pose proof (fresh_dashboard_is_zero (F := spec_float) "ethusdt"%string tt
                [tickMsg 5; KeyMsg "x"%string; otherMsg] eq_refl) as Hz.
  cbv zeta in Hz. cbv zeta. tauto.
Defined.

Lemma change_is_guarded_difference_witness :
  let captured : dashboardModel unit :=
    mkDashboardModel "btcusdt"%string "Bitcoin (BTC)"%string "BTC"%string
      (mkPriceData (B64.of_int 100) fzero fzero fzero fzero fzero fzero 7)
      [B64.of_int 100] tt false in
  let r := mkReading (B64.of_int 105) fzero fzero fzero 8 in
  let d := data (step captured (priceMsg (fetchPrice captured r))) in
  SFltb (S754_zero false) (PrevPrice d) = true /\ Change d = B64.of_int 5.
Proof.
  cbv zeta. split; [reflexivity|].
  etransitivity.
  - apply (proj1 (proj2 (proj2
      (change_is_guarded_difference (F := spec_float) _ _ _)))).
    reflexivity.
  - reflexivity.
Defined.

(** C1 as the claim states it fails on the first price: the model is fresh,
    so previousPrice is 0, the server reports 100, and the state after the
    update has change = 0 although price - previousPrice = 100. *)
Lemma change_unconditional_counterexample :
  let m : dashboardModel unit := newDashboardModel "btcusdt"%string tt in
  let r := mkReading (B64.of_int 100) (B64.of_int 100) (B64.of_int 100)
                     (B64.of_int 100) 1 in
  let d := data (step m (priceMsg (fetchPrice m r))) in
  Price d = B64.of_int 100 /\
  PrevPrice d = S754_zero false /\
  Change d = S754_zero false /\
  fsub (Price d) (PrevPrice d) = B64.of_int 100 /\
  Change d <> fsub (Price d) (PrevPrice d) /\
  feqb (Change d) (fsub (Price d) (PrevPrice d)) = false.
Proof.
  cbv zeta. repeat split; try reflexivity.
  vm_compute. discriminate.
Qed.

Section Binary64Dashboard.
Context {Server : Type}.

Lemma SFeqb_zero_not_positive (x : spec_float) :
  SFeqb x (S754_zero false) = true -> SFltb (S754_zero false) x = false.
Proof.
  destruct x as [s|s| |s m e]; cbn; intros Hx;
    try reflexivity; try discriminate; destruct s; discriminate.
Qed.

(** C2: after every price update applied to the dashboard state, computed in
    IEEE double precision, changePercent is change / previousPrice * 100
    when previousPrice > 0, and is the number 0 itself (positive zero, so
    neither NaN nor an infinity) when previousPrice == 0, as on the first
    tick of a fresh model; it is 0 as well whenever previousPrice > 0
    fails. *)
Theorem changePercent_guarded
        (captured m : dashboardModel (F := spec_float) Server) (r : Reading) :
  let d := data (step m (priceMsg (fetchPrice captured r))) in
  (SFltb (S754_zero false) (PrevPrice d) = true ->
     ChangePercent d = fmul (fdiv (Change d) (PrevPrice d)) (of_int 100)) /\
  (SFeqb (PrevPrice d) (S754_zero false) = true ->
     ChangePercent d = S754_zero false) /\
  (SFltb (S754_zero false) (PrevPrice d) = false ->
     ChangePercent d = S754_zero false) /\
  (forall sym srv,
     ChangePercent (data (step m (priceMsg
       (fetchPrice (newDashboardModel sym srv : dashboardModel Server) r))))
     = S754_zero false).
Proof.
  cbv zeta. rewrite step_priceMsg_data.
  pose proof (fetchPrice_fields captured r) as Hf. cbv zeta in Hf.
  rewrite Hf. cbn [PrevPrice Change ChangePercent fltb binary64].
  change (@fzero spec_float binary64) with (S754_zero false).
  assert (Hneg : SFltb (S754_zero false) (Price (data captured)) = false ->
                 (if SFltb (S754_zero false) (Price (data captured))
                  then SFmul B64.prec B64.emax
                         (fdiv (fsub (rPrice r) (Price (data captured)))
                               (Price (data captured))) (of_int 100)
                  else S754_zero false) = S754_zero false).
  { intros Hn. now rewrite Hn. }
  split; [|split; [|split]].
  - intros Hpos. rewrite Hpos. reflexivity.
  - intros Hz. apply Hneg. now apply SFeqb_zero_not_positive.
  - exact Hneg.
  - intros sym srv. reflexivity.
Qed.

End Binary64Dashboard.

Lemma changePercent_guarded_witness :
  let fresh : dashboardModel unit := newDashboardModel "btcusdt"%string tt in
  let r := mkReading (B64.of_int 100) fzero fzero fzero 8 in
  let d := data (step fresh (priceMsg (fetchPrice fresh r))) in
  SFeqb (PrevPrice d) (S754_zero false) = true /\
  ChangePercent d = S754_zero false.
Proof.
  cbv zeta. split; [reflexivity|].
  apply (proj1 (proj2 (changePercent_guarded
           (newDashboardModel "btcusdt"%string tt)
           (newDashboardModel "btcusdt"%string tt)
           (mkReading (B64.of_int 100) fzero fzero fzero 8)))).
  reflexivity.
Defined.


(** ** The aggregator's rolling window and moving average *)

Lemma skipn_S_tl {A} (k : nat) (l : list A) : skipn (S k) l = tl (skipn k l).
Proof.
  revert l. induction k as [|k IH]; intros [|x l]; try reflexivity.
  change (skipn (S (S k)) (x :: l)) with (skipn (S k) l).
  rewrite IH. reflexivity.
Qed.

Lemma lastn_all {A} (n : nat) (l : list A) :
  (List.length l <= n)%nat -> lastn n l = l.
Proof.
  intros Hl. unfold lastn. replace (List.length l - n)%nat with 0%nat by lia.
  reflexivity.
Qed.

Lemma lastn_length {A} (n : nat) (l : list A) :
  List.length (lastn n l) = Nat.min n (List.length l).
Proof. unfold lastn. rewrite length_skipn. lia. Qed.

Section WindowProperties.
Context {F : Type} `{Float64Ops F}.

Lemma push_lastn (N : nat) (ps : list F) (p : F) :
  push N (lastn N ps) p = lastn N (ps ++ [p]).
Proof.
  unfold push.
  destruct (Nat.ltb_spec N (List.length (lastn N ps ++ [p]))) as [Hgt|Hle];
    rewrite length_app, lastn_length in *; cbn [List.length] in *.
  - assert (Hlen : (N <= List.length ps)%nat) by lia.
    unfold lastn. rewrite length_app; cbn [List.length].
    replace (List.length ps + 1 - N)%nat with (S (List.length ps - N)) by lia.
    rewrite skipn_S_tl, skipn_app.
    replace (List.length ps - N - List.length ps)%nat with 0%nat by lia.
    reflexivity.
  - assert (Hlen : (List.length ps < N)%nat) by lia.
    rewrite (lastn_all N ps) by lia.
    rewrite lastn_all; [reflexivity|].
    rewrite length_app; cbn [List.length]; lia.
Qed.

Lemma ingestAll_snoc (a : Aggregator F) (ts : list (Tick F)) (t : Tick F) :
  ingestAll a (ts ++ [t]) = Ingest (ingestAll a ts) t (observedAt t).
Proof. unfold ingestAll. now rewrite fold_left_app. Qed.

Lemma ingestAll_app (a : Aggregator F) (ts1 ts2 : list (Tick F)) :
  ingestAll a (ts1 ++ ts2) = ingestAll (ingestAll a ts1) ts2.
Proof. unfold ingestAll. now rewrite fold_left_app. Qed.

Lemma ingestAll_capacity (ts : list (Tick F)) (a : Aggregator F) :
  capacity (ingestAll a ts) = capacity a.
Proof.
  revert a. induction ts as [|t ts IH]; intros a; [reflexivity|].
  unfold ingestAll in *; simpl. now rewrite IH.
Qed.

Lemma ingestAll_window (N : nat) (ts : list (Tick F)) :
  window (ingestAll (newAggregator N) ts) = lastn N (map price ts).
Proof.
  induction ts as [|t ts IH] using rev_ind; [reflexivity|].
  rewrite ingestAll_snoc, map_app. cbn [map Ingest window].
  rewrite ingestAll_capacity, IH. cbn [newAggregator capacity].
  apply push_lastn.
Qed.

(** C6: after ingesting the ticks p1..pk (k >= 1) into a fresh aggregator of
    window capacity N, the window holds the last min(k, N) prices in order
    and movingAverage is the arithmetic mean of the window: the mean of
    p1..pk when k <= N, and the mean of only the last N prices once more
    than N ticks have been ingested. *)
Theorem movingAverage_is_window_mean (N : nat) (ts : list (Tick F)) :
  ts <> [] ->
  let a := ingestAll (newAggregator N) ts in
  let ps := map price ts in
  window a = lastn N ps /\
  sMovingAverage (ReadSnapshot a) = mean (lastn N ps) /\
  ((List.length ts <= N)%nat -> sMovingAverage (ReadSnapshot a) = mean ps) /\
  ((N < List.length ts)%nat ->
     sMovingAverage (ReadSnapshot a) = mean (skipn (List.length ts - N) ps) /\
     List.length (skipn (List.length ts - N) ps) = N).
Proof.
  intros Hne. cbv zeta.
  assert (Hma : sMovingAverage (ReadSnapshot (ingestAll (newAggregator N) ts))
                = mean (lastn N (map price ts))).
  { destruct (exists_last Hne) as (ts' & t & ->).
    rewrite ingestAll_snoc. cbn [Ingest ReadSnapshot snapshot sMovingAverage].
    rewrite ingestAll_capacity, ingestAll_window, map_app.
    cbn [newAggregator capacity map]. now rewrite push_lastn. }
  split; [apply ingestAll_window|]. split; [exact Hma|]. split.
  - intros Hk. rewrite Hma, lastn_all; [reflexivity|].
    now rewrite length_map.
  - intros Hk. rewrite Hma. unfold lastn. rewrite length_map.
    split; [reflexivity|]. rewrite length_skipn, length_map. lia.
Qed.

End WindowProperties.

Lemma movingAverage_is_window_mean_witness :
  let a := ingestAll (newAggregator 2) (ticksOf (F := Q) [100; 105; 95]) in
  sMovingAverage (ReadSnapshot a) = mean [inject_Z 105; inject_Z 95] /\
  (sMovingAverage (ReadSnapshot a) == 100)%Q.
Proof.
  cbv zeta. split; [|reflexivity].
  apply (proj1 (proj2 (movingAverage_is_window_mean (F := Q) 2
                         (ticksOf [100; 105; 95]) ltac:(discriminate)))).
Defined.

(** ** The scenario 100, 105, 95, 110 *)

(** C7: ingesting the ticks 100, 105, 95, 110 in this order into a fresh
    aggregator whose window holds at least four prices yields high = 110,
    low = 95, price = 110, previousPrice = 95, change = 15, changePercent
    between 15.7885 and 15.7895, and a moving average equal to the mean of
    the four values, 410 / 4; this in IEEE double precision and in exact
    arithmetic alike. *)
Theorem scenario_100_105_95_110 (N : nat) :
  (4 <= N)%nat ->
  scenarioExpected (scenario (F := spec_float) N) /\
  scenarioExpected (scenario (F := Q) N).
Proof.
  intros HN.
  destruct N as [|[|[|[|n]]]]; try lia.
  split; unfold scenarioExpected; repeat split; vm_compute; reflexivity.
Qed.

Lemma scenario_100_105_95_110_witness :
  scenarioExpected (scenario (F := spec_float) 20) /\
  scenarioExpected (scenario (F := Q) 20).
Proof.
  apply (scenario_100_105_95_110 20). lia.
Defined.

(** ** Session high and low *)

(** The bracket [low <= price <= high] needs nothing of the arithmetic but
    that its comparison is a total preorder on the values it orders. *)
Section HighLow.
Context {F : Type} `{Float64Ops F}.
Variable ordered : F -> Prop.
Variable le : F -> F -> Prop.
Hypothesis le_refl : forall x, ordered x -> le x x.
Hypothesis le_trans : forall x y z, le x y -> le y z -> le x z.
Hypothesis fltb_le : forall x y, fltb x y = true -> le x y.
Hypothesis not_fltb_le :
  forall x y, ordered x -> ordered y -> fltb x y = false -> le y x.

Lemma Ingest_bracket (a : Aggregator F) (t : Tick F) (now : Time) :
  ordered (price t) -> seenOrdered ordered a ->
  let a' := Ingest a t now in
  le (sLow (snapshot a')) (price t) /\
  le (price t) (sHigh (snapshot a')) /\
  observed a' = true /\ seenOrdered ordered a' /\
  (observed a = true ->
     le (sHigh (snapshot a)) (sHigh (snapshot a')) /\
     le (sLow (snapshot a')) (sLow (snapshot a))).
Proof.
  intros Hp Ha. unfold seenOrdered in *. cbn [Ingest snapshot sHigh sLow observed].
  destruct (observed a) eqn:Hobs.
  - destruct (Ha eq_refl) as [Hhi Hlo].
    destruct (fltb (sHigh (snapshot a)) (price t)) eqn:Hh;
      destruct (fltb (price t) (sLow (snapshot a))) eqn:Hl;
      repeat split; intros; auto.
  - repeat split; intros; auto; discriminate.
Qed.

Lemma ingestAll_monotone (ts : list (Tick F)) (a : Aggregator F) :
  Forall (fun t => ordered (price t)) ts ->
  observed a = true -> seenOrdered ordered a ->
  let b := ingestAll a ts in
  observed b = true /\ seenOrdered ordered b /\
  le (sHigh (snapshot a)) (sHigh (snapshot b)) /\
  le (sLow (snapshot b)) (sLow (snapshot a)).
Proof.
  revert a. induction ts as [|t ts IH]; intros a Hts Hobs Ha; cbv zeta.
  - destruct (Ha Hobs). unfold ingestAll; simpl. repeat split; auto.
  - inversion Hts as [|? ? Ht Hts']; subst.
    destruct (Ingest_bracket a t (observedAt t) Ht Ha)
      as (_ & _ & Hobs1 & Ha1 & Hmono).
    destruct (Hmono Hobs) as [Hh Hl].
    destruct (IH _ Hts' Hobs1 Ha1) as (Hobs2 & Ha2 & Hh2 & Hl2).
    change (ingestAll a (t :: ts))
      with (ingestAll (Ingest a t (observedAt t)) ts).
    repeat split; try apply Ha2; eauto.
Qed.

Lemma seenOrdered_fresh (N : nat) (ts : list (Tick F)) :
  Forall (fun t => ordered (price t)) ts ->
  seenOrdered ordered (ingestAll (newAggregator N) ts).
Proof.
  intros Hts.
  assert (Hgen : forall a, seenOrdered ordered a -> seenOrdered ordered (ingestAll a ts)).
  { induction ts as [|t ts IH]; intros a Ha; [exact Ha|].
    inversion Hts as [|? ? Ht Hts']; subst.
    change (ingestAll a (t :: ts))
      with (ingestAll (Ingest a t (observedAt t)) ts).
    apply (IH Hts'). now apply Ingest_bracket. }
  apply Hgen. intros Hobs. discriminate.
Qed.

(** The high/low bracket and its monotonicity, for ordered prices. *)
Lemma high_low_generic (N : nat) (ts1 ts2 : list (Tick F)) (t : Tick F) :
  Forall (fun t => ordered (price t)) (ts1 ++ t :: ts2) ->
  let a := ingestAll (newAggregator N) (ts1 ++ [t]) in
  let b := ingestAll (newAggregator N) ((ts1 ++ [t]) ++ ts2) in
  le (sLow (snapshot a)) (price t) /\
  le (price t) (sHigh (snapshot a)) /\
  le (sHigh (snapshot a)) (sHigh (snapshot b)) /\
  le (sLow (snapshot b)) (sLow (snapshot a)).
Proof.
  intros Hall. cbv zeta.
  apply Forall_app in Hall as [H1 Hrest].
  inversion Hrest as [|? ? Ht H2]; subst.
  rewrite (ingestAll_app _ (ts1 ++ [t]) ts2), ingestAll_snoc.
  pose proof (seenOrdered_fresh N ts1 H1) as Hinv.
  destruct (Ingest_bracket _ t (observedAt t) Ht Hinv)
    as (Hlo & Hhi & Hobs & Hinv' & _).
  split; [exact Hlo|]. split; [exact Hhi|].
  apply (ingestAll_monotone ts2 _ H2 Hobs Hinv').
Qed.

End HighLow.

(** *** The comparison of IEEE numbers, NaN apart, is a total preorder *)

Module B64OrderFacts.
Import B64Order.

Ltac by_compare :=
  match goal with
  | |- context [Z.compare ?a ?b] =>
      destruct (Z.compare_spec a b); subst
  end;
  try match goal with
  | |- context [Pos.compare_cont Eq ?a ?b] =>
      change (Pos.compare_cont Eq a b) with (Pos.compare a b);
      destruct (Pos.compare_spec a b); subst
  end.

Lemma SFleb_rank (x y : spec_float) :
  notNaN x -> notNaN y -> (SFleb x y = true <-> lexle (rank x) (rank y)).
Proof.
  unfold notNaN, SFleb, lexle.
  destruct x as [sx|sx| |sx mx ex], y as [sy|sy| |sy my ey];
    try congruence; intros _ _;
    try destruct sx; try destruct sy; cbn;
    try by_compare; cbn; split; intros; try lia; try discriminate; auto.
Qed.

Lemma SFltb_rank (x y : spec_float) :
  notNaN x -> notNaN y -> (SFltb x y = true <-> lexlt (rank x) (rank y)).
Proof.
  unfold notNaN, SFltb, lexlt.
  destruct x as [sx|sx| |sx mx ex], y as [sy|sy| |sy my ey];
    try congruence; intros _ _;
    try destruct sx; try destruct sy; cbn;
    try by_compare; cbn; split; intros; try lia; try discriminate; auto.
Qed.

Lemma le_refl (x : spec_float) : notNaN x -> le x x.
Proof.
  intros Hx. apply SFleb_rank; auto.
  unfold lexle. destruct (rank x) as [[a b] c]. lia.
Qed.

Lemma le_notNaN (x y : spec_float) : le x y -> notNaN x /\ notNaN y.
Proof.
  unfold le, notNaN.
  destruct x as [sx|sx| |sx mx ex], y as [sy|sy| |sy my ey];
    cbn; intros; split; congruence.
Qed.

Lemma le_trans (x y z : spec_float) : le x y -> le y z -> le x z.
Proof.
  intros Hxy Hyz.
  destruct (le_notNaN _ _ Hxy) as [Hx Hy].
  destruct (le_notNaN _ _ Hyz) as [_ Hz].
  apply SFleb_rank in Hxy; auto. apply SFleb_rank in Hyz; auto.
  apply SFleb_rank; auto.
  unfold lexle in *.
  destruct (rank x) as [[a1 a2] a3], (rank y) as [[b1 b2] b3],
           (rank z) as [[c1 c2] c3]. lia.
Qed.

Lemma fltb_le (x y : spec_float) : SFltb x y = true -> le x y.
Proof.
  unfold le, SFltb, SFleb. destruct (SFcompare x y) as [[| |]|]; congruence.
Qed.

Lemma not_fltb_le (x y : spec_float) :
  notNaN x -> notNaN y -> SFltb x y = false -> le y x.
Proof.
  intros Hx Hy Hlt. apply SFleb_rank; auto.
  assert (Hn : ~ lexlt (rank x) (rank y)).
  { intros Hr. apply SFltb_rank in Hr; auto. congruence. }
  unfold lexle, lexlt in *.
  destruct (rank x) as [[a1 a2] a3], (rank y) as [[b1 b2] b3]. lia.
Qed.

End B64OrderFacts.

Lemma exactQ_fltb_le (x y : Q) : fltb x y = true -> (x <= y)%Q.
Proof.
  cbn. unfold ExactQ.ltb. intros Hlt. apply negb_true_iff in Hlt.
  apply Qlt_le_weak, Qnot_le_lt. intros Hle.
  apply Qle_bool_iff in Hle. congruence.
Qed.

Lemma exactQ_not_fltb_le (x y : Q) : fltb x y = false -> (y <= x)%Q.
Proof.
  cbn. unfold ExactQ.ltb. intros Hlt. apply negb_false_iff in Hlt.
  now apply Qle_bool_iff.
Qed.

(** C5: for every sequence of ticks fed to a fresh aggregator, the state
    after each Ingest(t) satisfies high >= t.price >= low, high never
    decreases and low never increases over the rest of the sequence, and
    the first tick sets high and low to its price.  This holds in exact
    arithmetic for every sequence, and in IEEE double precision for every
    sequence whose prices are numbers (NaN compares false with everything,
    itself included). *)
Theorem high_low_bracket (N : nat) :
  (forall (ts1 : list (Tick Q)) (t : Tick Q) (ts2 : list (Tick Q)),
     bracketed Qle N ts1 t ts2) /\
  (forall (ts1 : list (Tick spec_float)) (t : Tick spec_float)
          (ts2 : list (Tick spec_float)),
     Forall (fun t => B64Order.notNaN (price t)) (ts1 ++ t :: ts2) ->
     bracketed B64Order.le N ts1 t ts2).
Proof.
  split.
  - intros ts1 t ts2. unfold bracketed.
    destruct (@high_low_generic Q exactQ (fun _ => True) Qle
                (fun x _ => Qle_refl x) Qle_trans exactQ_fltb_le
                (fun x y _ _ => exactQ_not_fltb_le x y) N ts1 ts2 t)
      as (Hlo & Hhi & Hh & Hl).
    { apply Forall_forall. auto. }
    rewrite ingestAll_snoc at 1. cbn [ReadSnapshot Ingest snapshot sPrice].
    repeat split; auto.
  - intros ts1 t ts2 Hall. unfold bracketed.
    destruct (@high_low_generic spec_float binary64 B64Order.notNaN B64Order.le
                B64OrderFacts.le_refl B64OrderFacts.le_trans B64OrderFacts.fltb_le
                B64OrderFacts.not_fltb_le N ts1 ts2 t Hall)
      as (Hlo & Hhi & Hh & Hl).
    rewrite ingestAll_snoc at 1. cbn [ReadSnapshot Ingest snapshot sPrice].
    repeat split; auto.
Qed.

Lemma high_low_bracket_witness :
  bracketed B64Order.le 20
    (ticksOf [100; 105]) (mkTick (B64.of_int 95) 1) (ticksOf [110]) /\
  bracketed Qle 20
    (ticksOf [100; 105]) (mkTick (inject_Z 95) 1) (ticksOf [110]).
Proof.
  split.
  - apply (proj2 (high_low_bracket 20)).
    repeat constructor; discriminate.
  - apply (proj1 (high_low_bracket 20)).
Defined.

(** ** Sparkline *)

Section SparklineGeneric.
Context {F : Type} `{Float64Ops F} {Server : Type}.

(** The clamp bounds every index from above, in any arithmetic. *)
Lemma glyphIndex_upper (mn rang v : F) : glyphIndex mn rang v <= len chars - 1.
Proof.
  unfold glyphIndex. cbv zeta.
  destruct (Z.leb_spec (len chars)
              (to_int (fmul (fdiv (fsub v mn) rang) (of_int (len chars - 1)))));
    lia.
Qed.

Lemma sparkLoop_total (mn rang : F) (vs : list F) (prev : option F) :
  Forall (fun v => 0 <= glyphIndex mn rang v) vs ->
  exists spark, sparkLoop mn rang prev vs = Some spark /\
                List.length spark = List.length vs.
Proof.
  revert prev. induction vs as [|v vs IH]; intros prev Hvs; cbn [sparkLoop].
  - now exists [].
  - inversion Hvs as [|? ? Hv Hvs']; subst.
    pose proof (glyphIndex_upper mn rang v) as Hup.
    destruct (index chars (glyphIndex mn rang v)) as [char|] eqn:Hidx.
    + destruct (IH (Some v) Hvs') as (spark & -> & Hlen).
      eexists; split; [reflexivity|]. cbn [List.length]. now rewrite Hlen.
    + exfalso. unfold index in Hidx.
      destruct (Z.leb_spec 0 (glyphIndex mn rang v)); [|lia].
      destruct (Z.ltb_spec (glyphIndex mn rang v) (len chars)); [|lia].
      cbn [andb] in Hidx. apply nth_error_None in Hidx.
      unfold len in *. lia.
Qed.


End SparklineGeneric.

(** C9 fails on the code.  A fresh dashboard polls the prices 100 and then
    positive infinity; both pass the test [msg.Price > 0], so the history is
    [100, +Inf].  There min = 100, max = +Inf and the divisor is +Inf; the
    entry 100 gets index 0, but for the entry +Inf the normalisation is
    Inf / Inf = NaN, [int] of it is the smallest integer, the clamp
    [idx >= len(chars)] does not apply, and [chars[idx]] panics: the
    sparkline is not total and the index is not kept within the table. *)
Theorem renderSparkline_panics_on_infinity :
  let inf := S754_infinity false in
  let fresh : dashboardModel unit := newDashboardModel "btcusdt"%string tt in
  let m := pollAll fresh
             [(1, mkReading (B64.of_int 100) fzero fzero fzero 1);
              (2, mkReading inf fzero fzero fzero 2)] in
  history m = [B64.of_int 100; inf] /\
  minmax (B64.of_int 100) (history m) = (B64.of_int 100, inf) /\
  sparkRange (B64.of_int 100) inf = inf /\
  glyphIndex (B64.of_int 100) inf (B64.of_int 100) = 0 /\
  glyphIndex (B64.of_int 100) inf inf = B64.min_int64 /\
  index chars B64.min_int64 = None /\
  renderSparkline m = None /\
  renderSparkline
    (run fresh
       [priceMsg (mkPriceData (B64.of_int 100) fzero fzero fzero fzero fzero
                    fzero 1);
        priceMsg (mkPriceData inf (B64.of_int 100) fzero fzero fzero inf inf 2)])
  = None.
Proof.
  cbv zeta. repeat split; vm_compute; reflexivity.
Qed.

(** The same history rendered in IEEE double precision: the glyphs U+2583,
    U+2585, U+2581 and U+2588, coloured by trend. *)
Example renderSparkline_binary64_example :
  renderSparkline
    (mkDashboardModel (Server := unit) "btcusdt"%string "Bitcoin (BTC)"%string
       "BTC"%string zeroPriceData
       (map B64.of_int [100; 105; 95; 110]%Z) tt false)
  = Some [RenderRune valueStyle 0x2583; RenderRune upStyle 0x2585;
          RenderRune downStyle 0x2581; RenderRune upStyle 0x2588].
Proof. vm_compute. reflexivity. Qed.

(** * Further properties of the front end *)

Lemma GetCoin_lookup_hit (c : coin) :
  In c coins ->
  (GetCoinName (symbol c) = name c /\ GetCoinShort (symbol c) = short c) /\
  symbol c <> name c /\ symbol c <> short c.
Proof.
  intros Hin. split.
  - unfold GetCoinName, GetCoinShort.
    split; apply lookupCoin_hit; auto using coins_symbols_NoDup.
  - simpl in Hin. decompose [or] Hin; subst; simpl;
      try (split; discriminate). contradiction.
Qed.

(** ** Coin selection: what a run can select *)

Section SelectionProperties.
Context {F : Type}.


Lemma index_In {A} (l : list A) (i : Z) (x : A) : index l i = Some x -> In x l.
Proof.
  unfold index. destruct ((0 <=? i) && (i <? len l)); [|discriminate].
  apply nth_error_In.
Qed.

Lemma selectUpdate_keeps_selection (m : selectModel) (msg : @Msg F) :
  selectionOk m ->
  exists m' c, selectUpdate m msg = Some (m', c) /\ selectionOk m'.
Proof.
  intros (Hcur & Hsel & Hdone).
  assert (Hc5 : 0 <= cursor m <= 5) by exact Hcur.
  destruct msg as [key| | |]; simpl;
    try (do 2 eexists; split; [reflexivity|now repeat split]).
  destruct ((key =? "ctrl+c")%string || (key =? "q")%string).
  { do 2 eexists; split; [reflexivity|]. now repeat split. }
  destruct ((key =? "up")%string || (key =? "k")%string).
  { do 2 eexists; split; [reflexivity|].
    destruct (Z.ltb_spec 0 (cursor m)); [|now repeat split].
    repeat split; simpl; auto; try lia;
      try (change (len coins - 1) with 5; lia). }
  destruct ((key =? "down")%string || (key =? "j")%string).
  { do 2 eexists; split; [reflexivity|].
    change (len coins - 1) with 5.
    destruct (Z.ltb_spec (cursor m) 5); [|now repeat split].
    repeat split; simpl; auto; try lia;
      try (change (len coins - 1) with 5; lia). }
  destruct ((key =? "enter")%string || (key =? " ")%string).
  { destruct (index_coins_in_range (cursor m) Hcur) as [c Hc].
    rewrite Hc. do 2 eexists; split; [reflexivity|].
    repeat split; simpl; auto; try apply Hcur.
    right. exists c. split; [|reflexivity]. now apply index_In in Hc. }
  do 2 eexists; split; [reflexivity|]. now repeat split.
Qed.

Lemma selectRun_keeps_selection (msgs : list (@Msg F)) (m : selectModel) :
  selectionOk m -> exists m', selectRun m msgs = Some m' /\ selectionOk m'.
Proof.
  revert m. induction msgs as [|msg msgs IH]; intros m Hm; simpl.
  - now exists m.
  - destruct (selectUpdate_keeps_selection m msg Hm) as (m1 & c & -> & Hm1).
    now apply IH.
Qed.

Lemma selectionOk_initial : selectionOk initialSelectModel.
Proof.
  unfold selectionOk, cursorOk. change (len coins - 1) with 5. simpl.
  split; [lia|]. split; [now left|]. intros Hne. now contradiction Hne.
Qed.

Lemma coins_symbol_nonempty (c : coin) : In c coins -> symbol c <> ""%string.
Proof.
  simpl. intros Hin. decompose [or] Hin; subst; simpl; try discriminate.
  contradiction.
Qed.

(** X1: whatever messages the selection program processes, the symbol it
    holds is either empty or the symbol of a coin of the table, and a
    non-empty selection always comes with [done] set. *)
Theorem selected_is_from_table (msgs : list (@Msg F)) :
  exists m, selectRun initialSelectModel msgs = Some m /\
    (selected m = ""%string \/ exists c, In c coins /\ selected m = symbol c) /\
    (selected m <> ""%string -> done m = true).
Proof.
  destruct (selectRun_keeps_selection msgs _ selectionOk_initial)
    as (m & Hrun & _ & Hsel & Hdone).
  exists m. auto.
Qed.

(** X2: [RunTUI] passes an error of the program on; otherwise, whatever
    was typed, it fails with "no coin selected" or returns the symbol of a
    coin of the table, for which [GetCoinName] and [GetCoinShort] (as called
    next by [main] and [newDashboardModel]) find that coin's name and short
    label. *)
Theorem RunTUI_returns_table_symbol (msgs : list (@Msg F)) (e : string) :
  RunTUI (Err e) = Err e /\
  exists m, selectRun initialSelectModel msgs = Some m /\
    (RunTUI (Ok m) = Err "no coin selected" \/
     exists c, In c coins /\ RunTUI (Ok m) = Ok (symbol c) /\
               GetCoinName (symbol c) = name c /\
               GetCoinShort (symbol c) = short c).
Proof.
  split; [reflexivity|].
  destruct (selectRun_keeps_selection msgs _ selectionOk_initial)
    as (m & Hrun & _ & [Hs|(c & Hin & Hs)] & _);
    exists m; (split; [exact Hrun|]); unfold RunTUI; rewrite Hs.
  - now left.
  - right. exists c. split; [exact Hin|].
    destruct (String.eqb_spec (symbol c) "") as [Hempty|_].
    + now apply coins_symbol_nonempty in Hin.
    + split; [reflexivity|]. now apply (proj1 (GetCoin_lookup_hit c Hin)).
Qed.

Lemma selectRun_app (m : selectModel) (l1 l2 : list (@Msg F)) :
  selectRun m (l1 ++ l2) =
  match selectRun m l1 with
  | Some m' => selectRun m' l2
  | None => None
  end.
Proof.
  revert m. induction l1 as [|msg l1 IH]; intros m; simpl; [reflexivity|].
  destruct (selectUpdate m msg) as [[m' c]|]; [apply IH|reflexivity].
Qed.

Lemma selectUpdate_down (m : selectModel) (msg : @Msg F) :
  isDownKey msg = true ->
  selectUpdate m msg =
    Some (if cursor m <? len coins - 1
          then mkSelectModel (cursor m + 1) (selected m) (done m) else m,
          selectNil).
Proof.
  destruct msg as [key| | |]; simpl; try discriminate. intros Hk.
  apply orb_prop in Hk as [Hk|Hk]; apply String.eqb_eq in Hk; subst; reflexivity.
Qed.

Lemma selectUpdate_up (m : selectModel) (msg : @Msg F) :
  isUpKey msg = true ->
  selectUpdate m msg =
    Some (if 0 <? cursor m
          then mkSelectModel (cursor m - 1) (selected m) (done m) else m,
          selectNil).
Proof.
  destruct msg as [key| | |]; simpl; try discriminate. intros Hk.
  apply orb_prop in Hk as [Hk|Hk]; apply String.eqb_eq in Hk; subst; reflexivity.
Qed.

Lemma selectRun_downs (downs : list (@Msg F)) (m : selectModel) :
  forallb isDownKey downs = true -> cursor m <= 5 ->
  selectRun m downs =
    Some (if (0 <? len downs) && (cursor m <? 5)
          then mkSelectModel (Z.min (cursor m + len downs) 5) (selected m) (done m)
          else m).
Proof.
  revert m. induction downs as [|msg downs IH]; intros m Hall Hm; [reflexivity|].
  simpl in Hall. apply andb_prop in Hall as [Hmsg Hall].
  cbn [selectRun]. rewrite (selectUpdate_down m msg Hmsg).
  change (len coins - 1) with 5.
  assert (Hlen : len (msg :: downs) = len downs + 1)
    by (unfold len; cbn [List.length]; lia).
  assert (Hpos : 0 <= len downs) by (unfold len; lia).
  rewrite Hlen.
  destruct (Z.ltb_spec (cursor m) 5) as [Hlt|Hge].
  - rewrite IH by (simpl; auto; lia). cbn [cursor selected done].
    destruct (Z.ltb_spec 0 (len downs + 1)); [|lia]. cbn [andb].
    destruct (Z.ltb_spec 0 (len downs)); cbn [andb].
    + destruct (Z.ltb_spec (cursor m + 1) 5).
      * f_equal. f_equal. lia.
      * f_equal. f_equal. lia.
    + f_equal. f_equal. lia.
  - rewrite IH by auto.
    destruct (Z.ltb_spec (cursor m) 5); [lia|].
    now rewrite !andb_false_r.
Qed.

Lemma selectRun_ups (ups : list (@Msg F)) (m : selectModel) :
  forallb isUpKey ups = true -> 0 <= cursor m ->
  selectRun m ups =
    Some (if (0 <? len ups) && (0 <? cursor m)
          then mkSelectModel (Z.max (cursor m - len ups) 0) (selected m) (done m)
          else m).
Proof.
  revert m. induction ups as [|msg ups IH]; intros m Hall Hm; [reflexivity|].
  simpl in Hall. apply andb_prop in Hall as [Hmsg Hall].
  cbn [selectRun]. rewrite (selectUpdate_up m msg Hmsg).
  assert (Hlen : len (msg :: ups) = len ups + 1)
    by (unfold len; cbn [List.length]; lia).
  assert (Hpos : 0 <= len ups) by (unfold len; lia).
  rewrite Hlen.
  destruct (Z.ltb_spec 0 (cursor m)) as [Hlt|Hge].
  - rewrite IH by (simpl; auto; lia). cbn [cursor selected done].
    destruct (Z.ltb_spec 0 (len ups + 1)); [|lia]. cbn [andb].
    destruct (Z.ltb_spec 0 (len ups)); cbn [andb].
    + destruct (Z.ltb_spec 0 (cursor m - 1)).
      * f_equal. f_equal. lia.
      * f_equal. f_equal. lia.
    + f_equal. f_equal. lia.
  - rewrite IH by auto.
    destruct (Z.ltb_spec 0 (cursor m)); [lia|].
    now rewrite !andb_false_r.
Qed.

(** X3: from the initial model, any presses of "down"/"j" followed by any
    presses of "up"/"k" leave the cursor at max(0, min(#downs, 5) - #ups):
    the cursor saturates at the last row and at the first, and nothing is
    selected. *)
Theorem cursor_after_downs_and_ups (downs ups : list (@Msg F)) :
  forallb isDownKey downs = true -> forallb isUpKey ups = true ->
  exists m, selectRun initialSelectModel (downs ++ ups) = Some m /\
            cursor m = Z.max 0 (Z.min (len downs) 5 - len ups) /\
            selected m = ""%string /\ done m = false.
Proof.
  intros Hd Hu. rewrite selectRun_app.
  rewrite (selectRun_downs downs _ Hd) by (simpl; lia).
  assert (Hpd : 0 <= len downs) by (unfold len; lia).
  assert (Hpu : 0 <= len ups) by (unfold len; lia).
  change (cursor initialSelectModel) with 0.
  change (0 <? 5) with true. rewrite andb_true_r.
  change (selected initialSelectModel) with ""%string.
  change (done initialSelectModel) with false.
  destruct (Z.ltb_spec 0 (len downs)) as [Hd0|Hd0].
  - rewrite (selectRun_ups ups _ Hu) by (cbn [cursor]; lia).
    cbn [cursor selected done].
    destruct (Z.ltb_spec 0 (len ups)) as [Hu0|Hu0];
      destruct (Z.ltb_spec 0 (Z.min (0 + len downs) 5)) as [Hm0|Hm0];
      try lia; cbn [andb]; eexists; (split; [reflexivity|]);
      cbn [cursor selected done]; repeat split; lia.
  - rewrite (selectRun_ups ups _ Hu) by (cbn; lia).
    change (cursor initialSelectModel) with 0.
    change (0 <? 0) with false. rewrite andb_false_r.
    eexists; split; [reflexivity|].
    change (cursor initialSelectModel) with 0. repeat split. lia.
Qed.

(** X4: "up" undoes "down" and "down" undoes "up" away from the ends of the
    list, giving back the very same model; at the last row "down" changes
    nothing, and at the first row "up" changes nothing. *)
Theorem down_up_round_trip (m : selectModel) :
  (0 <= cursor m < len coins - 1 ->
     selectRun m [@KeyMsg F "down"; KeyMsg "up"] = Some m) /\
  (0 < cursor m <= len coins - 1 ->
     selectRun m [@KeyMsg F "up"; KeyMsg "down"] = Some m) /\
  (len coins - 1 <= cursor m -> selectRun m [@KeyMsg F "down"] = Some m) /\
  (cursor m <= 0 -> selectRun m [@KeyMsg F "up"] = Some m).
Proof.
  change (len coins - 1) with 5. destruct m as [c s d].
  cbn [cursor selectRun selectUpdate String.eqb orb Ascii.eqb Bool.eqb andb
       selected done]. change (len coins - 1) with 5.
  repeat split; intros Hc.
  - destruct (Z.ltb_spec c 5); [|lia]. cbn [cursor selected done].
    destruct (Z.ltb_spec 0 (c + 1)); [|lia]. do 2 f_equal. lia.
  - destruct (Z.ltb_spec 0 c); [|lia]. cbn [cursor selected done].
    destruct (Z.ltb_spec (c - 1) 5); [|lia]. do 2 f_equal. lia.
  - destruct (Z.ltb_spec c 5); [lia|]. reflexivity.
  - destruct (Z.ltb_spec 0 c); [lia|]. reflexivity.
Qed.

End SelectionProperties.

Section SelectionOutcome.
Context {F : Type}.

Lemma selectUpdate_keeps_selected (m : selectModel) (msg : @Msg F) :
  isSelectKey msg = false ->
  forall m' c, selectUpdate m msg = Some (m', c) -> selected m' = selected m.
Proof.
  destruct msg as [key| | |]; simpl; intros Hk m' c Hup;
    try (inversion Hup; subst; reflexivity).
  destruct ((key =? "ctrl+c")%string || (key =? "q")%string);
    [inversion Hup; subst; reflexivity|].
  destruct ((key =? "up")%string || (key =? "k")%string).
  { inversion Hup; subst. clear Hup. destruct (0 <? cursor m); reflexivity. }
  destruct ((key =? "down")%string || (key =? "j")%string).
  { inversion Hup; subst. clear Hup.
    destruct (cursor m <? 5); reflexivity. }
  rewrite Hk in Hup. inversion Hup; subst. reflexivity.
Qed.

(** X5: a run in which neither "enter" nor the space bar is pressed selects
    nothing, whatever else is typed (quit keys included), and [RunTUI] then
    fails with "no coin selected". *)
Theorem no_select_key_no_coin (msgs : list (@Msg F)) :
  forallb (fun msg => negb (isSelectKey msg)) msgs = true ->
  exists m, selectRun initialSelectModel msgs = Some m /\
            selected m = ""%string /\
            RunTUI (Ok m) = Err "no coin selected".
Proof.
  intros Hmsgs.
  assert (Hgen : forall m0, selectionOk m0 ->
            exists m, selectRun m0 msgs = Some m /\ selected m = selected m0).
  { induction msgs as [|msg rest IH]; intros m0 Hm0; simpl; [now exists m0|].
    simpl in Hmsgs. apply andb_prop in Hmsgs as [Hmsg Hrest].
    apply negb_true_iff in Hmsg.
    destruct (selectUpdate_keeps_selection m0 msg Hm0) as (m1 & c & Hup & Hm1).
    rewrite Hup.
    destruct (IH Hrest m1 Hm1) as (m & Hrun & Hsel).
    exists m. split; [exact Hrun|].
    rewrite Hsel. eapply selectUpdate_keeps_selected; eauto. }
  destruct (Hgen _ selectionOk_initial) as (m & Hrun & Hsel).
  exists m. split; [exact Hrun|]. split; [exact Hsel|].
  unfold RunTUI. now rewrite Hsel.
Qed.

(** X6: in every state a run can reach, the view shows exactly one
    highlighted row, the mark followed by the name of coins[cursor], among
    the six rows; and pressing "enter" or the space bar there selects that
    very coin, sets [done] and quits. *)
Theorem enter_selects_highlighted_row (msgs : list (@Msg F)) :
  exists m c,
    selectRun initialSelectModel msgs = Some m /\
    index coins (cursor m) = Some c /\
    filter isSelectedRow (selectView m)
      = [Styled selectedStyle (cursorMark ++ name c)] /\
    List.length (viewRows (cursor m) 0 coins) = (2 * List.length coins)%nat /\
    selectUpdate m (@KeyMsg F "enter")
      = Some (mkSelectModel (cursor m) (symbol c) true, selectQuit) /\
    selectUpdate m (@KeyMsg F " ")
      = Some (mkSelectModel (cursor m) (symbol c) true, selectQuit).
Proof.
  destruct (selectRun_keeps_cursor msgs initialSelectModel) as (m & Hrun & Hm).
  { unfold cursorOk. simpl. change (len coins - 1) with 5. lia. }
  unfold cursorOk in Hm. change (len coins - 1) with 5 in Hm.
  destruct m as [cur sel dn]. cbn [cursor] in *.
  assert (Hc : cur = 0 \/ cur = 1 \/ cur = 2 \/ cur = 3 \/ cur = 4 \/ cur = 5)
    by lia.
  exists (mkSelectModel cur sel dn).
  decompose [or] Hc; subst cur; eexists;
    (split; [exact Hrun|]); repeat split; reflexivity.
Qed.

(** X7: every coin of the table can be selected: pressing "down" as many
    times as the coin's position and then "enter" makes [RunTUI] return that
    coin's symbol. *)
Theorem every_coin_selectable (i : nat) (c : coin) :
  nth_error coins i = Some c ->
  exists m,
    selectRun initialSelectModel
      (repeat (@KeyMsg F "down") i ++ [KeyMsg "enter"]) = Some m /\
    RunTUI (Ok m) = Ok (symbol c).
Proof.
  intros Hnth.
  assert (Hi : (i < List.length coins)%nat)
    by (apply nth_error_Some; congruence).
  cbn [coins List.length] in Hi.
  do 6 (destruct i as [|i];
        [injection Hnth as <-; eexists; split; reflexivity|]).
  lia.
Qed.

End SelectionOutcome.

Lemma no_select_key_no_coin_witness :
  exists m : selectModel,
    selectRun initialSelectModel
      [@KeyMsg unit "down"; KeyMsg "j"; KeyMsg "x"; otherMsg; KeyMsg "q"]
      = Some m /\
    selected m = ""%string /\ RunTUI (Ok m) = Err "no coin selected".
Proof.
  apply (no_select_key_no_coin
           [@KeyMsg unit "down"; KeyMsg "j"; KeyMsg "x"; otherMsg; KeyMsg "q"]).
  reflexivity.
Defined.

Lemma every_coin_selectable_witness :
  exists m : selectModel,
    selectRun initialSelectModel
      (repeat (@KeyMsg unit "down") 3 ++ [KeyMsg "enter"]) = Some m /\
    RunTUI (Ok m) = Ok "bnbusdt"%string.
Proof.
  apply (every_coin_selectable (F := unit) 3
           (mkCoin "bnbusdt" "Binance Coin (BNB)" "BNB")).
  reflexivity.
Defined.

Lemma cursor_after_downs_and_ups_witness :
  exists m : selectModel,
    selectRun initialSelectModel
      (repeat (@KeyMsg unit "down") 8 ++ repeat (KeyMsg "k") 2) = Some m /\
    cursor m = 3 /\ selected m = ""%string /\ done m = false.
Proof.
  apply (cursor_after_downs_and_ups
           (repeat (@KeyMsg unit "down") 8) (repeat (KeyMsg "k") 2));
    reflexivity.
Defined.

Lemma down_up_round_trip_witness :
  selectRun (mkSelectModel 2 "" false) [@KeyMsg unit "down"; KeyMsg "up"]
  = Some (mkSelectModel 2 "" false).
Proof.
  apply (proj1 (down_up_round_trip (F := unit) (mkSelectModel 2 "" false))).
  change (len coins - 1) with 5. simpl. lia.
Defined.

(** ** Dashboard: what a run keeps and what it shows *)

Lemma lastn_snoc {A} (N : nat) (ps : list A) (p : A) :
  (if (N <? List.length (lastn N ps ++ [p]))%nat
   then tl (lastn N ps ++ [p]) else lastn N ps ++ [p])
  = lastn N (ps ++ [p]).
Proof.
  destruct (Nat.ltb_spec N (List.length (lastn N ps ++ [p]))) as [Hgt|Hle];
    rewrite length_app, lastn_length in *; cbn [List.length] in *.
  - unfold lastn. rewrite length_app; cbn [List.length].
    replace (List.length ps + 1 - N)%nat with (S (List.length ps - N)) by lia.
    rewrite skipn_S_tl, skipn_app.
    replace (List.length ps - N - List.length ps)%nat with 0%nat by lia.
    reflexivity.
  - rewrite (lastn_all N ps) by lia.
    rewrite lastn_all; [reflexivity|].
    rewrite length_app; cbn [List.length]; lia.
Qed.

Lemma In_lastn {A} (N : nat) (l : list A) (x : A) : In x (lastn N l) -> In x l.
Proof.
  unfold lastn. intros Hin.
  rewrite <- (firstn_skipn (List.length l - N) l). apply in_or_app. now right.
Qed.

Section DashboardRuns.
Context {F : Type} `{Float64Ops F} {Server : Type}.

Lemma run_snoc (m : dashboardModel Server) (msgs : list Msg) (msg : Msg) :
  run m (msgs ++ [msg]) = step (run m msgs) msg.
Proof. unfold run. now rewrite fold_left_app. Qed.

Lemma historyPrices_snoc (msgs : list (@Msg F)) (msg : Msg) :
  historyPrices (msgs ++ [msg]) = historyPrices msgs ++ historyPrices [msg].
Proof. unfold historyPrices. now rewrite flat_map_app. Qed.

Lemma history_is_last_positive_prices_aux
        (sym : string) (srv : Server) (msgs : list Msg) :
  history (run (newDashboardModel sym srv) msgs)
  = lastn 20 (historyPrices msgs).
Proof.
  induction msgs as [|msg msgs IH] using rev_ind; [reflexivity|].
  rewrite run_snoc, historyPrices_snoc.
  set (m := run (newDashboardModel sym srv) msgs) in *.
  destruct msg as [key| |d|]; unfold step; cbn [Update fst historyPrices flat_map];
    rewrite ?app_nil_r; try exact IH.
  - destruct ((key =? "ctrl+c")%string || (key =? "q")%string); exact IH.
  - cbn [history]. destruct (fltb fzero (Price d)); cbn [app];
      rewrite ?app_nil_r; [|exact IH].
    rewrite IH, <- lastn_snoc.
    unfold historyCap, len.
    destruct (Nat.ltb_spec 20 (List.length (lastn 20 (historyPrices msgs) ++ [Price d])));
      destruct (Z.ltb_spec 20 (Z.of_nat (List.length
                  (lastn 20 (historyPrices msgs) ++ [Price d]))));
      try lia; reflexivity.
Qed.

(** X8: after any sequence of messages applied to a fresh dashboard model,
    the history is exactly the last 20 of the prices above zero that the
    price messages carried, in their order of arrival; prices that are not
    above zero and all other messages leave no trace in it. *)
Theorem history_is_last_positive_prices
        (sym : string) (srv : Server) (msgs : list Msg) :
  history (run (newDashboardModel sym srv) msgs)
  = lastn 20 (historyPrices msgs) /\
  ((List.length (historyPrices msgs) <= 20)%nat ->
     history (run (newDashboardModel sym srv) msgs) = historyPrices msgs).
Proof.
  split; [apply history_is_last_positive_prices_aux|].
  intros Hlen. rewrite history_is_last_positive_prices_aux.
  now apply lastn_all.
Qed.

(** Every entry of the history of a dashboard run is a price above zero:
    the test [msg.Price > 0] held for it. *)
Lemma history_entries_positive
        (sym : string) (srv : Server) (msgs : list Msg) :
  Forall (fun v => fltb fzero v = true)
         (history (run (newDashboardModel sym srv) msgs)).
Proof.
  rewrite history_is_last_positive_prices_aux.
  apply Forall_forall. intros v Hv.
  apply In_lastn in Hv.
  unfold historyPrices in Hv. apply in_flat_map in Hv as (msg & _ & Hv).
  destruct msg as [key| |d|]; try contradiction.
  destruct (fltb fzero (Price d)) eqn:Hd; [|contradiction].
  destruct Hv as [<-|[]]. exact Hd.
Qed.

End DashboardRuns.

(** X9: in IEEE double precision, the history of a dashboard run never
    holds NaN, a zero or a negative number: every entry compares above zero,
    so it is a positive finite number or positive infinity. *)
Theorem history_never_holds_nan {Server : Type}
        (sym : string) (srv : Server) (msgs : list (@Msg spec_float)) :
  Forall (fun v => SFltb (S754_zero false) v = true /\
                   v <> S754_nan /\
                   (forall s, v <> S754_zero s) /\
                   ((exists m e, v = S754_finite false m e) \/
                    v = S754_infinity false))
         (history (run (newDashboardModel sym srv) msgs)).
Proof.
  eapply Forall_impl; [|apply (history_entries_positive sym srv msgs)].
  cbv beta. intros v Hv. change (SFltb (S754_zero false) v = true) in Hv.
  split; [exact Hv|].
  destruct v as [s|s| |s m e]; try discriminate.
  - destruct s; [discriminate|].
    repeat split; try discriminate; auto.
  - destruct s; [discriminate|].
    repeat split; try discriminate. left. eauto.
Qed.

Section DashboardFrame.
Context {F : Type} `{Float64Ops F} {Server : Type}.

Lemma step_frame (m : dashboardModel Server) (msg : Msg) :
  dsymbol (step m msg) = dsymbol m /\ coinName (step m msg) = coinName m /\
  coinShort (step m msg) = coinShort m /\ server (step m msg) = server m.
Proof.
  destruct msg as [key| |d|]; unfold step; cbn [Update fst]; auto.
  destruct ((key =? "ctrl+c")%string || (key =? "q")%string); cbn; auto.
Qed.

(** X10: no message changes the symbol, the coin's name and short label or
    the server of a dashboard model; for a model made by
    [newDashboardModel] the name and the short label stay what
    [GetCoinName] and [GetCoinShort] give for the symbol. *)
Theorem run_keeps_identity (m : dashboardModel Server) (msgs : list Msg) :
  (dsymbol (run m msgs) = dsymbol m /\ coinName (run m msgs) = coinName m /\
   coinShort (run m msgs) = coinShort m /\ server (run m msgs) = server m) /\
  (forall sym srv, m = newDashboardModel sym srv ->
     coinName (run m msgs) = GetCoinName (dsymbol (run m msgs)) /\
     coinShort (run m msgs) = GetCoinShort (dsymbol (run m msgs))).
Proof.
  assert (Hframe : dsymbol (run m msgs) = dsymbol m /\
                   coinName (run m msgs) = coinName m /\
                   coinShort (run m msgs) = coinShort m /\
                   server (run m msgs) = server m).
  { revert m. induction msgs as [|msg msgs IH]; intros m; [now repeat split|].
    change (run m (msg :: msgs)) with (run (step m msg) msgs).
    destruct (IH (step m msg)) as (H1 & H2 & H3 & H4).
    destruct (step_frame m msg) as (G1 & G2 & G3 & G4).
    repeat split; congruence. }
  split; [exact Hframe|].
  intros sym srv ->. destruct Hframe as (H1 & H2 & H3 & _).
  rewrite H1, H2, H3. split; reflexivity.
Qed.

(** X11: the dashboard quits exactly when a quit key ("q" or "ctrl+c") has
    been pressed: after any run from a fresh model, [quitting] is true if
    and only if some message was one of these keys; once set it stays. *)
Theorem quitting_iff_quit_key (sym : string) (srv : Server) (msgs : list Msg) :
  quitting (run (newDashboardModel sym srv) msgs) = existsb isQuitKey msgs.
Proof.
  assert (Hgen : forall m : dashboardModel Server,
             quitting (run m msgs) = quitting m || existsb isQuitKey msgs).
  { induction msgs as [|msg msgs IH]; intros m;
      [now rewrite orb_false_r|].
    change (run m (msg :: msgs)) with (run (step m msg) msgs).
    rewrite IH. cbn [existsb]. rewrite orb_assoc. f_equal.
    destruct msg as [key| |d|]; unfold step; cbn [Update fst isQuitKey];
      rewrite ?orb_false_r; try reflexivity.
    destruct ((key =? "ctrl+c")%string || (key =? "q")%string); cbn;
      [now rewrite orb_true_r | now rewrite orb_false_r]. }
  apply Hgen.
Qed.

(** X12: after any run from a fresh model the data is that of the last
    price message, taken over whole, or the zero value if there was none;
    key presses, ticks and other messages never touch it. *)
Theorem data_is_last_price_message
        (sym : string) (srv : Server) (msgs : list Msg) :
  data (run (newDashboardModel sym srv) msgs) = lastPriceData msgs zeroPriceData.
Proof.
  assert (Hgen : forall m : dashboardModel Server,
             data (run m msgs) = lastPriceData msgs (data m)).
  { induction msgs as [|msg msgs IH]; intros m; [reflexivity|].
    change (run m (msg :: msgs)) with (run (step m msg) msgs).
    rewrite IH.
    destruct msg as [key| |d|]; unfold step; cbn [Update fst lastPriceData];
      try reflexivity.
    destruct ((key =? "ctrl+c")%string || (key =? "q")%string); reflexivity. }
  apply Hgen.
Qed.

End DashboardFrame.

Lemma run_keeps_identity_witness :
  coinName (run (newDashboardModel (F := spec_float) "xrpusdt"%string tt)
                [tickMsg 1; KeyMsg "q"%string])
  = "Ripple (XRP)"%string.
Proof.
  etransitivity.
  - apply (proj2 (run_keeps_identity (F := spec_float)
                    (newDashboardModel "xrpusdt"%string tt)
                    [tickMsg 1; KeyMsg "q"%string])
             "xrpusdt"%string tt eq_refl).
  - reflexivity.
Defined.

(** ** Polling: tick, fetch, update *)

Section PollingProperties.
Context {F : Type} `{Float64Ops F} {Server : Type}.

Lemma poll_is_fetch_then_update (m : dashboardModel Server) (t : Time) (r : Reading) :
  poll m (t, r) = step m (priceMsg (fetchPrice m r)).
Proof. reflexivity. Qed.

Lemma pollAll_snoc (m : dashboardModel Server) (trs : list (Time * Reading))
      (tr : Time * Reading) :
  pollAll m (trs ++ [tr]) = poll (pollAll m trs) tr.
Proof. unfold pollAll. now rewrite fold_left_app. Qed.

Lemma step_priceMsg_history (m : dashboardModel Server) (d : PriceData)
      (ps : list F) :
  history m = lastn 20 ps ->
  history (step m (priceMsg d))
  = lastn 20 (ps ++ (if fltb fzero (Price d) then [Price d] else [])).
Proof.
  intros Hm. unfold step. cbn [Update fst history].
  destruct (fltb fzero (Price d)); [|now rewrite app_nil_r].
  rewrite Hm, <- lastn_snoc. unfold historyCap, len.
  destruct (Nat.ltb_spec 20 (List.length (lastn 20 ps ++ [Price d])));
    destruct (Z.ltb_spec 20 (Z.of_nat (List.length (lastn 20 ps ++ [Price d]))));
    try lia; reflexivity.
Qed.

(** The prices above zero among the polled readings, in order. *)
Lemma polled_history (sym : string) (srv : Server) (trs : list (Time * Reading)) :
  history (pollAll (newDashboardModel sym srv) trs)
  = lastn 20 (filter (fltb fzero) (map (fun tr => rPrice (snd tr)) trs)).
Proof.
  induction trs as [|[t r] trs IH] using rev_ind; [reflexivity|].
  rewrite pollAll_snoc, poll_is_fetch_then_update.
  rewrite (step_priceMsg_history _ _ _ IH).
  rewrite map_app, filter_app. cbn [map filter snd].
  rewrite fetchPrice_fields. cbn [Price].
  now destruct (fltb fzero (rPrice r)).
Qed.

(** X13: in the polling loop (tick, fetch, update) the price shown is the
    server's price at the last poll and the previous price is the price at
    the poll before it; change and change percent are computed from these
    two when the earlier one is above zero and are 0 otherwise; high, low,
    moving average and time are those read at the last poll.  The history
    is the last 20 polled prices above zero. *)
Theorem polling_tracks_server
        (sym : string) (srv : Server) (trs : list (Time * Reading))
        (t1 t2 : Time) (r1 r2 : Reading) :
  let b := pollAll (newDashboardModel sym srv) (trs ++ [(t1, r1); (t2, r2)]) in
  let d := data b in
  let change := fsub (rPrice r2) (rPrice r1) in
  Price d = rPrice r2 /\ PrevPrice d = rPrice r1 /\
  Change d = (if fltb fzero (rPrice r1) then change else fzero) /\
  ChangePercent d = (if fltb fzero (rPrice r1)
                     then fmul (fdiv change (rPrice r1)) (of_int 100)
                     else fzero) /\
  High d = rHigh r2 /\ Low d = rLow r2 /\
  MovingAverage d = rMovingAverage r2 /\ UpdatedAt d = rNow r2 /\
  history b = lastn 20 (filter (fltb fzero)
                 (map (fun tr => rPrice (snd tr)) (trs ++ [(t1, r1); (t2, r2)]))).
Proof.
  cbv zeta. split; [|split; [|split; [|split; [|split; [|split; [|split; [|split]]]]]]];
    try apply polled_history.
  all: change (trs ++ [(t1, r1); (t2, r2)]) with (trs ++ [(t1, r1)] ++ [(t2, r2)]);
    rewrite app_assoc, pollAll_snoc, poll_is_fetch_then_update,
      step_priceMsg_data, fetchPrice_fields;
    cbn [Price PrevPrice Change ChangePercent High Low MovingAverage UpdatedAt];
    try reflexivity.
  all: rewrite pollAll_snoc, poll_is_fetch_then_update, step_priceMsg_data,
      fetchPrice_fields; reflexivity.
Qed.

End PollingProperties.

(** ** Rounding in IEEE double precision keeps the sign *)

Module B64Round.

Import B64Num.

Lemma digits2_pos_bounds (m : positive) :
  2 ^ (Zpos (digits2_pos m) - 1) <= Zpos m < 2 ^ Zpos (digits2_pos m).
Proof.
  induction m as [m IH|m IH|]; cbn [digits2_pos].
  - rewrite Pos2Z.inj_succ. change (Zpos m~1) with (2 * Zpos m + 1).
    replace (Z.succ (Zpos (digits2_pos m)) - 1)
      with (Z.succ (Zpos (digits2_pos m) - 1)) by lia.
    rewrite !Z.pow_succ_r by lia. lia.
  - rewrite Pos2Z.inj_succ. change (Zpos m~0) with (2 * Zpos m).
    replace (Z.succ (Zpos (digits2_pos m)) - 1)
      with (Z.succ (Zpos (digits2_pos m) - 1)) by lia.
    rewrite !Z.pow_succ_r by lia. lia.
  - cbn. lia.
Qed.

Lemma shr_1_m (mrs : shr_record) :
  0 <= shr_m mrs -> shr_m (shr_1 mrs) = shr_m mrs / 2.
Proof.
  destruct mrs as [m r s]. cbn [shr_m]. intros Hm.
  rewrite <- Z.div2_div.
  destruct m as [|[p|p|]|p]; try reflexivity. lia.
Qed.

Lemma iter_shr_1_m (p : positive) (mrs : shr_record) :
  0 <= shr_m mrs ->
  shr_m (iter_pos shr_1 p mrs) = shr_m mrs / 2 ^ Zpos p.
Proof.
  revert mrs. induction p as [p IH|p IH|]; intros mrs Hm; cbn [iter_pos].
  - assert (H1 : 0 <= shr_m (shr_1 mrs))
      by (rewrite shr_1_m by lia; apply Z.div_pos; lia).
    assert (H2 : 0 <= shr_m (iter_pos shr_1 p (shr_1 mrs)))
      by (rewrite IH by lia; apply Z.div_pos; lia).
    rewrite IH, IH, shr_1_m by lia.
    rewrite !Z.div_div by lia.
    f_equal. change (Zpos p~1) with (2 * Zpos p + 1).
    replace (2 * Zpos p + 1) with (1 + Zpos p + Zpos p) by lia.
    rewrite !Z.pow_add_r by lia. lia.
  - assert (H2 : 0 <= shr_m (iter_pos shr_1 p mrs))
      by (rewrite IH by lia; apply Z.div_pos; lia).
    rewrite IH, IH by lia.
    rewrite !Z.div_div by lia.
    f_equal. change (Zpos p~0) with (2 * Zpos p).
    replace (2 * Zpos p) with (Zpos p + Zpos p) by lia.
    rewrite !Z.pow_add_r by lia. lia.
  - rewrite shr_1_m by lia. reflexivity.
Qed.

Lemma shr_record_of_loc_m (m : Z) (l : location) :
  shr_m (shr_record_of_loc m l) = m.
Proof. destruct l as [|[| |]]; reflexivity. Qed.

(** One shift of the rounding keeps a positive mantissa positive, as long
    as the exponent is not below the smallest one. *)
Lemma shr_fexp_positive (m e : Z) (l : location) :
  0 < m -> emin <= e ->
  0 < shr_m (fst (shr_fexp B64.prec B64.emax m e l)) /\
  emin <= snd (shr_fexp B64.prec B64.emax m e l).
Proof.
  intros Hm He. unfold shr_fexp, shr.
  destruct m as [|pm|pm]; try lia. cbn [Zdigits2].
  pose proof (digits2_pos_bounds pm) as Hd.
  set (d := Zpos (digits2_pos pm)) in *.
  assert (Hfexp : fexp B64.prec B64.emax (d + e) - e = Z.max (d - 53) (emin - e)).
  { unfold fexp, SpecFloat.emin, B64.prec, B64.emax, emin. lia. }
  rewrite Hfexp.
  destruct (Z.max (d - 53) (emin - e)) as [|n|n] eqn:Hn; cbn [fst snd];
    rewrite ?shr_record_of_loc_m; try lia.
  rewrite iter_shr_1_m by (rewrite shr_record_of_loc_m; lia).
  rewrite shr_record_of_loc_m.
  split; [|lia].
  assert (Hle : Zpos n <= d - 1) by lia.
  apply Z.div_str_pos. split; [apply Z.pow_pos_nonneg; lia|].
  transitivity (2 ^ (d - 1)); [|lia].
  apply Z.pow_le_mono_r; lia.
Qed.

Lemma round_nearest_even_positive (m : Z) (l : location) :
  0 < m -> 0 < round_nearest_even m l.
Proof.
  intros Hm. destruct l as [|[| |]]; cbn; try lia.
  destruct (Z.even m); lia.
Qed.

Lemma binary_round_aux_signed (s : bool) (m e : Z) (l : location) :
  0 < m -> emin <= e ->
  signedNonzero s (binary_round_aux B64.prec B64.emax s m e l).
Proof.
  intros Hm He. unfold binary_round_aux.
  destruct (shr_fexp_positive m e l Hm He) as [Hm1 He1].
  destruct (shr_fexp B64.prec B64.emax m e l) as [mrs1 e1]. cbn [fst snd] in *.
  pose proof (round_nearest_even_positive (shr_m mrs1)
                (loc_of_shr_record mrs1) Hm1) as Hr.
  destruct (shr_fexp_positive _ e1 loc_Exact Hr He1) as [Hm2 He2].
  destruct (shr_fexp B64.prec B64.emax
              (round_nearest_even (shr_m mrs1) (loc_of_shr_record mrs1))
              e1 loc_Exact) as [mrs2 e2]. cbn [fst snd] in *.
  destruct (shr_m mrs2) as [|m2|m2]; try lia.
  destruct (e2 <=? B64.emax - B64.prec); [left; eauto|now right].
Qed.

Lemma binary_round_signed (s : bool) (m : positive) (e : Z) :
  emin <= e -> signedNonzero s (binary_round B64.prec B64.emax s m e).
Proof.
  intros He. unfold binary_round, shl_align.
  set (e' := fexp B64.prec B64.emax (Zpos (digits2_pos m) + e)).
  assert (He' : emin <= e').
  { unfold e', fexp, SpecFloat.emin, B64.prec, B64.emax, emin. lia. }
  destruct (e' - e) as [|d|d]; apply binary_round_aux_signed; lia.
Qed.

Lemma binary_normalize_signed (z e : Z) :
  emin <= e -> z <> 0 ->
  signedNonzero (z <? 0) (binary_normalize B64.prec B64.emax z e false).
Proof.
  intros He Hz. destruct z as [|p|p]; [lia| |]; cbn [binary_normalize];
    now apply binary_round_signed.
Qed.

End B64Round.

(** ** Subtraction and comparison in IEEE double precision *)

Module B64Sub.
Import B64Num B64Round.

Lemma iter_xO_value (d m : positive) : Zpos (Pos.iter xO m d) = Zpos m * 2 ^ Zpos d.
Proof.
  induction d as [|d IH] using Pos.peano_ind.
  - cbn. lia.
  - rewrite Pos.iter_succ, Pos2Z.inj_succ, Z.pow_succ_r by lia.
    change (Zpos (Pos.iter xO m d)~0) with (2 * Zpos (Pos.iter xO m d)).
    rewrite IH. lia.
Qed.

Lemma shl_align_value (m : positive) (e ez : Z) :
  ez <= e -> Zpos (fst (shl_align m e ez)) = Zpos m * 2 ^ (e - ez).
Proof.
  intros Hle. unfold shl_align.
  destruct (ez - e) as [|d|d] eqn:Hd; cbn [fst]; try lia.
  - replace (e - ez) with 0 by lia. cbn. lia.
  - rewrite iter_xO_value. f_equal. f_equal. lia.
Qed.

Lemma double_mantissa (s : bool) (m : positive) (e : Z) :
  isDouble (S754_finite s m e) ->
  Zpos m < 2 ^ 53 /\ emin <= e /\ (e = emin \/ 2 ^ 52 <= Zpos m).
Proof.
  unfold isDouble, valid_binary, bounded, canonical_mantissa.
  intros Hv. apply andb_prop in Hv as [Hc _]. apply Z.eqb_eq in Hc.
  pose proof (digits2_pos_bounds m) as Hd.
  set (d := Zpos (digits2_pos m)) in *.
  unfold fexp, SpecFloat.emin, B64.prec, B64.emax in Hc. unfold emin.
  assert (Hd53 : d <= 53) by lia.
  split; [|split; [lia|]].
  - apply Z.lt_le_trans with (2 ^ d); [lia|]. apply Z.pow_le_mono_r; lia.
  - destruct (Z.eq_dec e (-1074)) as [He|He]; [now left|right].
    assert (Hd' : d = 53) by lia. rewrite Hd' in Hd. exact (proj1 Hd).
Qed.

Lemma pow2_ge_2 (n : Z) : 0 < n -> 2 <= 2 ^ n.
Proof.
  intros Hn. change 2 with (2 ^ 1) at 1. apply Z.pow_le_mono_r; lia.
Qed.

(** The comparison of two finite doubles is that of their scaled integers. *)
Lemma SFcompare_scaled (sx sy : bool) (mx my : positive) (ex ey : Z) :
  isDouble (S754_finite sx mx ex) -> isDouble (S754_finite sy my ey) ->
  SFcompare (S754_finite sx mx ex) (S754_finite sy my ey)
  = Some (scaled sx mx ex (Z.min ex ey) ?= scaled sy my ey (Z.min ex ey)).
Proof.
  intros Hx Hy.
  destruct (double_mantissa _ _ _ Hx) as (Hmx & Hex & Hnx).
  destruct (double_mantissa _ _ _ Hy) as (Hmy & Hey & Hny).
  change (2 ^ 53) with 9007199254740992 in *.
  change (2 ^ 52) with 4503599627370496 in *.
  cbn [SFcompare]. f_equal. unfold scaled.
  change (Pos.compare_cont Eq mx my) with (Zpos mx ?= Zpos my).
  destruct (Z.compare_spec ex ey) as [Heq|Hlt|Hgt].
  - subst ey. rewrite Z.min_id, Z.sub_diag. cbn [Z.pow]. rewrite !Z.mul_1_r.
    destruct sx, sy; cbn [cond_Zopp]; symmetry;
      first [ reflexivity
            | rewrite Z.compare_opp; apply Z.compare_antisym
            | apply Z.compare_lt_iff; lia
            | apply Z.compare_gt_iff; lia ].
  - rewrite Z.min_l by lia. rewrite Z.sub_diag. cbn [Z.pow]. rewrite Z.mul_1_r.
    pose proof (pow2_ge_2 (ey - ex) ltac:(lia)) as Hp.
    set (P := 2 ^ (ey - ex)) in *.
    assert (Hbig : Zpos mx < Zpos my * P) by nia.
    destruct sx, sy; cbn [cond_Zopp]; symmetry;
      first [apply Z.compare_lt_iff | apply Z.compare_gt_iff]; lia.
  - rewrite Z.min_r by lia. rewrite Z.sub_diag. cbn [Z.pow]. rewrite Z.mul_1_r.
    pose proof (pow2_ge_2 (ex - ey) ltac:(lia)) as Hp.
    set (P := 2 ^ (ex - ey)) in *.
    assert (Hbig : Zpos my < Zpos mx * P) by nia.
    destruct sx, sy; cbn [cond_Zopp]; symmetry;
      first [apply Z.compare_lt_iff | apply Z.compare_gt_iff]; lia.
Qed.

Lemma SFsub_scaled (sx sy : bool) (mx my : positive) (ex ey : Z) :
  SFsub B64.prec B64.emax (S754_finite sx mx ex) (S754_finite sy my ey)
  = binary_normalize B64.prec B64.emax
      (scaled sx mx ex (Z.min ex ey) - scaled sy my ey (Z.min ex ey))
      (Z.min ex ey) false.
Proof.
  cbn [SFsub]. cbv zeta. unfold scaled.
  rewrite !shl_align_value by lia. reflexivity.
Qed.

Lemma signedNonzero_tests (s : bool) (x : spec_float) :
  signedNonzero s x ->
  SFltb (S754_zero false) x = negb s /\ SFltb x (S754_zero false) = s /\
  SFeqb x (S754_zero false) = false.
Proof.
  intros [(m & e & ->)| ->]; destruct s; repeat split; reflexivity.
Qed.

(** The sign of a difference of doubles is what comparing them says. *)
Lemma SFsub_sign (x y : spec_float) :
  isDouble x -> isDouble y ->
  let d := SFsub B64.prec B64.emax x y in
  SFltb (S754_zero false) d = SFltb y x /\
  SFltb d (S754_zero false) = SFltb x y.
Proof.
  intros Hx Hy. cbv zeta.
  destruct x as [sx|sx| |sx mx ex], y as [sy|sy| |sy my ey];
    try (destruct sx; destruct sy; split; reflexivity);
    try (destruct sx; split; reflexivity);
    try (destruct sy; split; reflexivity);
    try (split; reflexivity).
  rewrite SFsub_scaled.
  unfold SFltb. rewrite (SFcompare_scaled _ _ _ _ _ _ Hx Hy).
  rewrite (SFcompare_scaled _ _ _ _ _ _ Hy Hx).
  rewrite (Z.min_comm ey ex).
  destruct (double_mantissa _ _ _ Hx) as (_ & Hex & _).
  destruct (double_mantissa _ _ _ Hy) as (_ & Hey & _).
  set (vx := scaled sx mx ex (Z.min ex ey)).
  set (vy := scaled sy my ey (Z.min ex ey)).
  destruct (Z.eq_dec (vx - vy) 0) as [Hz|Hnz].
  - rewrite Hz. cbn [binary_normalize SFcompare].
    replace vx with vy by lia. rewrite Z.compare_refl. split; reflexivity.
  - destruct (signedNonzero_tests _ _
                (binary_normalize_signed (vx - vy) (Z.min ex ey)
                   ltac:(lia) Hnz)) as (H1 & H2 & _).
    fold (SFltb (S754_zero false)
            (binary_normalize B64.prec B64.emax (vx - vy) (Z.min ex ey) false)).
    fold (SFltb (binary_normalize B64.prec B64.emax (vx - vy) (Z.min ex ey) false)
            (S754_zero false)).
    rewrite H1, H2.
    destruct (Z.ltb_spec (vx - vy) 0) as [Hneg|Hpos]; cbn [negb].
    + rewrite (proj2 (Z.compare_gt_iff vy vx)) by lia.
      rewrite (proj2 (Z.compare_lt_iff vx vy)) by lia. split; reflexivity.
    + rewrite (proj2 (Z.compare_lt_iff vy vx)) by lia.
      rewrite (proj2 (Z.compare_gt_iff vx vy)) by lia. split; reflexivity.
Qed.

End B64Sub.

(** ** Change and the direction of the move, in IEEE double precision *)

Section ChangeDirection.
Context {Server : Type}.
Import B64Num.

Lemma SFsub_equal (x y : spec_float) :
  isDouble x -> isDouble y ->
  (forall s, y <> S754_infinity s) -> SFeqb x y = true ->
  exists s, SFsub B64.prec B64.emax x y = S754_zero s.
Proof.
  intros Hx Hy Hinf Heq.
  destruct x as [sx|sx| |sx mx ex], y as [sy|sy| |sy my ey];
    try discriminate; try (now contradiction (Hinf sy));
    try (destruct sx; discriminate);
    try (destruct sy; discriminate).
  - exists (if sx then negb sy else false). now destruct sx, sy.
  - unfold SFeqb in Heq.
    rewrite (B64Sub.SFcompare_scaled _ _ _ _ _ _ Hx Hy) in Heq.
    rewrite B64Sub.SFsub_scaled.
    destruct (Z.compare_spec (scaled sx mx ex (Z.min ex ey))
                             (scaled sy my ey (Z.min ex ey))) as [Hv| |];
      try discriminate.
    rewrite Hv, Z.sub_diag. now exists false.
Qed.

(** X14: in IEEE double precision, for doubles with the previous price
    above zero: change is above zero exactly when the new price is above
    the previous one and below zero exactly when it is below; and when the
    new price equals a finite previous price, change and change percent are
    zero.  When the previous price is not above zero both are 0. *)
Theorem change_follows_direction
        (captured : dashboardModel (F := spec_float) Server) (r : Reading) :
  let prev := Price (data captured) in
  let d := fetchPrice captured r in
  isDouble prev -> isDouble (rPrice r) ->
  (SFltb (S754_zero false) prev = true ->
     SFltb (S754_zero false) (Change d) = SFltb prev (Price d) /\
     SFltb (Change d) (S754_zero false) = SFltb (Price d) prev /\
     ((forall s, prev <> S754_infinity s) -> SFeqb (Price d) prev = true ->
        (exists s, Change d = S754_zero s) /\
        (exists s, ChangePercent d = S754_zero s))) /\
  (SFltb (S754_zero false) prev = false ->
     Change d = S754_zero false /\ ChangePercent d = S754_zero false).
Proof.
  cbv zeta. intros Hprev Hprice. rewrite fetchPrice_fields.
  cbn [Price Change ChangePercent fltb fsub fdiv fmul binary64].
  change (@fzero spec_float binary64) with (S754_zero false).
  split; intros Hpos; rewrite Hpos; [|split; reflexivity].
  destruct (B64Sub.SFsub_sign (rPrice r) (Price (data captured)) Hprice Hprev)
    as [Hup Hdown].
  cbv zeta in Hup, Hdown.
  split; [exact Hup|]. split; [exact Hdown|].
  intros Hfin Heq.
  destruct (SFsub_equal _ _ Hprice Hprev Hfin Heq) as [s Hs].
  rewrite Hs. split; [now exists s|].
  destruct (Price (data captured)) as [sp|sp| |sp mp ep];
    try (now contradiction (Hfin sp)); try (now cbn in Hpos);
    try (destruct sp; now cbn in Hpos).
  eexists. vm_compute. reflexivity.
Qed.

End ChangeDirection.

Lemma change_follows_direction_witness :
  let captured : dashboardModel unit :=
    mkDashboardModel "btcusdt"%string "Bitcoin (BTC)"%string "BTC"%string
      (mkPriceData (B64.of_int 95) fzero fzero fzero fzero fzero fzero 7)
      [B64.of_int 95] tt false in
  let d := fetchPrice captured (mkReading (B64.of_int 110) fzero fzero fzero 8) in
  SFltb (S754_zero false) (Change d) = true.
Proof.
  cbv zeta.
  etransitivity.
  - apply (proj1 (proj1 (change_follows_direction
      (mkDashboardModel (Server := unit) "btcusdt"%string
         "Bitcoin (BTC)"%string "BTC"%string
         (mkPriceData (B64.of_int 95) fzero fzero fzero fzero fzero fzero 7)
         [B64.of_int 95] tt false)
      (mkReading (B64.of_int 110) fzero fzero fzero 8)
      ltac:(reflexivity) ltac:(reflexivity)) ltac:(reflexivity))).
  - reflexivity.
Defined.

(** ** Sparkline: glyphs, panics and trend colours *)

Section SparklineShape.
Context {F : Type} `{Float64Ops F} {Server : Type}.

Lemma index_chars_Some (i : Z) :
  0 <= i <= len chars - 1 -> exists r, index chars i = Some r /\ In r chars.
Proof.
  change (len chars - 1) with 7. intros Hi.
  assert (Hc : i = 0 \/ i = 1 \/ i = 2 \/ i = 3 \/ i = 4 \/ i = 5 \/ i = 6 \/ i = 7)
    by lia.
  decompose [or] Hc; subst; eexists; (split; [reflexivity|]); simpl; tauto.
Qed.

Lemma index_negative {A} (l : list A) (i : Z) : i < 0 -> index l i = None.
Proof.
  intros Hi. unfold index. destruct (Z.leb_spec 0 i); [lia|reflexivity].
Qed.

Lemma sparkLoop_shape (mn rang : F) (vs : list F) (prev : option F) :
  (Exists (fun v => glyphIndex mn rang v < 0) vs ->
     sparkLoop mn rang prev vs = None) /\
  (Forall (fun v => 0 <= glyphIndex mn rang v) vs ->
     exists spark, sparkLoop mn rang prev vs = Some spark /\
                   List.length spark = List.length vs /\
                   Forall isGlyph spark).
Proof.
  revert prev. induction vs as [|v vs IH]; intros prev; cbn [sparkLoop].
  - split; [intros Hex; inversion Hex|].
    intros _. exists []. repeat split. constructor.
  - pose proof (glyphIndex_upper mn rang v) as Hup.
    destruct (IH (Some v)) as [IHbad IHgood].
    split.
    + intros Hex. inversion Hex as [? ? Hv|? ? Hrest]; subst.
      * now rewrite index_negative.
      * destruct (index chars (glyphIndex mn rang v)); [|reflexivity].
        now rewrite (IHbad Hrest).
    + intros Hall. inversion Hall as [|? ? Hv Hrest]; subst.
      destruct (index_chars_Some (glyphIndex mn rang v)) as (r & -> & Hr);
        [lia|].
      destruct (IHgood Hrest) as (spark & -> & Hlen & Hgl).
      eexists. split; [reflexivity|]. cbn [List.length]. split; [lia|].
      constructor; [|exact Hgl]. now exists (trendStyle prev v), r.
Qed.

(** X15: in any arithmetic, IEEE double precision included, a glyph index
    never exceeds 7; on a history of two or more entries [renderSparkline]
    panics whenever some index is negative, and otherwise returns one piece
    per entry, each a block glyph of the table [chars]. *)
Theorem renderSparkline_panics_only_below_zero (m : dashboardModel Server)
        (h0 h1 : F) (rest : list F) :
  history m = h0 :: h1 :: rest ->
  let mn := fst (minmax h0 (history m)) in
  let mx := snd (minmax h0 (history m)) in
  let rang := sparkRange mn mx in
  Forall (fun v => glyphIndex mn rang v <= 7) (history m) /\
  (Exists (fun v => glyphIndex mn rang v < 0) (history m) ->
     renderSparkline m = None) /\
  (Forall (fun v => 0 <= glyphIndex mn rang v) (history m) ->
     exists spark, renderSparkline m = Some spark /\
                   List.length spark = List.length (history m) /\
                   Forall isGlyph spark).
Proof.
  intros Hh. cbv zeta.
  assert (Hr : renderSparkline m =
               sparkLoop (fst (minmax h0 (history m)))
                 (sparkRange (fst (minmax h0 (history m)))
                             (snd (minmax h0 (history m))))
                 None (history m)).
  { unfold renderSparkline. rewrite Hh.
    now rewrite (surjective_pairing (minmax h0 (h0 :: h1 :: rest))). }
  rewrite Hr. split.
  - apply Forall_forall. intros v _. apply (glyphIndex_upper _ _ v).
  - apply sparkLoop_shape.
Qed.

Lemma sparkLoop_styles (mn rang : F) (vs : list F) (prev : option F)
      (spark : list Rendered) :
  sparkLoop mn rang prev vs = Some spark ->
  map styleOf spark
  = match vs with
    | [] => []
    | v :: rest =>
        trendStyle prev v
          :: map (fun pv => trendStyle (Some (fst pv)) (snd pv))
                 (combine vs rest)
    end.
Proof.
  revert prev spark. induction vs as [|v vs IH]; intros prev spark; cbn [sparkLoop].
  - now intros [= <-].
  - destruct (index chars (glyphIndex mn rang v)) as [r|]; [|discriminate].
    destruct (sparkLoop mn rang (Some v) vs) as [spark'|] eqn:Hrest;
      [|discriminate].
    intros [= <-]. cbn [map styleOf]. f_equal.
    rewrite (IH (Some v) spark' Hrest).
    destruct vs as [|w vs]; reflexivity.
Qed.

(** X16: when [renderSparkline] renders a history of two or more entries,
    the first glyph has the neutral style and every later glyph is coloured
    by comparing its value with the one before it: up when it is higher,
    down when it is lower, neutral otherwise. *)
Theorem sparkline_colours_follow_trend (m : dashboardModel Server)
        (h0 h1 : F) (rest : list F) (spark : list Rendered) :
  history m = h0 :: h1 :: rest ->
  renderSparkline m = Some spark ->
  map styleOf spark
  = valueStyle
      :: map (fun pv => if fltb (fst pv) (snd pv) then upStyle
                        else if fltb (snd pv) (fst pv) then downStyle
                        else valueStyle)
             (combine (history m) (tl (history m))).
Proof.
  intros Hh Hr. unfold renderSparkline in Hr. rewrite Hh in *.
  rewrite (surjective_pairing (minmax h0 (h0 :: h1 :: rest))) in Hr.
  now rewrite (sparkLoop_styles _ _ _ _ _ Hr).
Qed.

End SparklineShape.

Lemma renderSparkline_panics_only_below_zero_witness :
  let m : dashboardModel unit :=
    mkDashboardModel "btcusdt"%string "Bitcoin (BTC)"%string "BTC"%string
      zeroPriceData (map B64.of_int [100; 105; 95; 110]) tt false in
  exists spark, renderSparkline m = Some spark /\
                List.length spark = 4%nat /\ Forall isGlyph spark.
Proof.
  cbv zeta.
  apply (proj2 (proj2 (renderSparkline_panics_only_below_zero
    (mkDashboardModel "btcusdt"%string "Bitcoin (BTC)"%string "BTC"%string
       zeroPriceData (map B64.of_int [100; 105; 95; 110]) tt false)
    (B64.of_int 100) (B64.of_int 105) (map B64.of_int [95; 110]) eq_refl))).
  repeat constructor; vm_compute; discriminate.
Defined.

Lemma sparkline_colours_follow_trend_witness :
  map styleOf
    [RenderRune valueStyle 0x2583; RenderRune upStyle 0x2585;
     RenderRune downStyle 0x2581; RenderRune upStyle 0x2588]
  = [valueStyle; upStyle; downStyle; upStyle].
Proof.
  etransitivity.
  - apply (sparkline_colours_follow_trend
      (mkDashboardModel (Server := unit) "btcusdt"%string
         "Bitcoin (BTC)"%string "BTC"%string zeroPriceData
         (map B64.of_int [100; 105; 95; 110]) tt false)
      (B64.of_int 100) (B64.of_int 105) (map B64.of_int [95; 110])
      [RenderRune valueStyle 0x2583; RenderRune upStyle 0x2585;
       RenderRune downStyle 0x2581; RenderRune upStyle 0x2588]
      eq_refl).
    vm_compute. reflexivity.
  - vm_compute. reflexivity.
Defined.

(** ** Sparkline: the minimum and the maximum *)

Section MinMaxAttained.
Context {F : Type} `{Float64Ops F}.

Lemma minmax_fold_In (h : list F) (mn mx : F) :
  let r := fold_left minmaxStep h (mn, mx) in
  In (fst r) (mn :: h) /\ In (snd r) (mx :: h).
Proof.
  revert mn mx. induction h as [|v h IH]; intros mn mx; cbv zeta.
  - cbn. auto.
  - cbn [fold_left minmaxStep].
    destruct (IH (if fltb v mn then v else mn) (if fltb mx v then v else mx))
      as [Hmn Hmx].
    split.
    + destruct Hmn as [Hmn|Hmn]; [|now right; right].
      rewrite <- Hmn. destruct (fltb v mn); cbn; auto.
    + destruct Hmx as [Hmx|Hmx]; [|now right; right].
      rewrite <- Hmx. destruct (fltb mx v); cbn; auto.
Qed.

End MinMaxAttained.

Section SparklineRange.
Context {Server : Type}.
Local Open Scope Q_scope.

Lemma to_int_of_integer (q : Q) (n : Z) : q == inject_Z n -> ExactQ.to_int q = n.
Proof.
  unfold ExactQ.to_int, Qeq. destruct q as [a b]. cbn. intros Heq.
  replace a with (n * Z.pos b)%Z by lia.
  apply Z.quot_mul. lia.
Qed.

End SparklineRange.


(** ** Sparkline of a flat history *)

Section FlatHistory.
Context {F : Type} `{Float64Ops F} {Server : Type}.
Variable v : F.
Hypothesis v_not_below_itself : fltb v v = false.
Hypothesis flat_index : glyphIndex v (sparkRange v v) v = 0.

Lemma minmax_flat (n : nat) (a : F) :
  a = v -> fold_left minmaxStep (repeat v n) (a, a) = (v, v).
Proof.
  intros ->. induction n as [|n IH]; [reflexivity|].
  cbn [repeat fold_left minmaxStep]. now rewrite v_not_below_itself.
Qed.

Lemma sparkLoop_flat (n : nat) (prev : option F) :
  prev = None \/ prev = Some v ->
  sparkLoop v (sparkRange v v) prev (repeat v n)
  = Some (repeat (RenderRune valueStyle 0x2581) n).
Proof.
  revert prev. induction n as [|n IH]; intros prev Hprev; [reflexivity|].
  cbn [repeat sparkLoop]. rewrite flat_index.
  change (index chars 0) with (Some 0x2581).
  rewrite IH by now right.
  destruct Hprev as [->| ->]; cbn [trendStyle];
    rewrite ?v_not_below_itself; reflexivity.
Qed.

Lemma renderSparkline_flat (m : dashboardModel Server) (n : nat) :
  history m = repeat v (S (S n)) ->
  renderSparkline m = Some (repeat (RenderRune valueStyle 0x2581) (S (S n))).
Proof.
  intros Hh. unfold renderSparkline. rewrite Hh.
  change (repeat v (S (S n))) with (v :: v :: repeat v n) at 1.
  cbv iota. unfold minmax. rewrite (minmax_flat (S (S n)) v eq_refl).
  apply sparkLoop_flat. now left.
Qed.

End FlatHistory.

Lemma SFsub_self (x : spec_float) :
  x <> S754_nan -> (forall s, x <> S754_infinity s) ->
  SFsub B64.prec B64.emax x x = S754_zero false.
Proof.
  intros Hnan Hinf. destruct x as [s|s| |s m e].
  - now destruct s.
  - now contradiction (Hinf s).
  - now contradiction Hnan.
  - cbn [SFsub]. cbv zeta. rewrite Z.sub_diag. reflexivity.
Qed.

Lemma SFltb_irrefl (x : spec_float) : SFltb x x = false.
Proof.
  unfold SFltb. destruct x as [s|s| |s m e]; cbn; try reflexivity.
  - now destruct s.
  - rewrite Z.compare_refl.
    change (Pos.compare_cont Eq m m) with (Pos.compare m m).
    rewrite Pos.compare_refl. now destruct s.
Qed.

(** X19: a flat history (the same value two or more times) is drawn as a
    row of lowest glyphs in the neutral style, without dividing by zero:
    in exact arithmetic for every value, and in IEEE double precision for
    every value that is neither NaN nor an infinity. *)
Theorem flat_history_renders_flat {Server : Type} (n : nat) :
  (forall (m : dashboardModel (F := Q) Server) (v : Q),
     history m = repeat v (S (S n)) ->
     renderSparkline m
     = Some (repeat (RenderRune valueStyle 0x2581) (S (S n)))) /\
  (forall (m : dashboardModel (F := spec_float) Server) (v : spec_float),
     v <> S754_nan -> (forall s, v <> S754_infinity s) ->
     history m = repeat v (S (S n)) ->
     renderSparkline m
     = Some (repeat (RenderRune valueStyle 0x2581) (S (S n)))).
Proof.
  split.
  - intros m v Hh. apply (renderSparkline_flat v); [| |exact Hh].
    + cbn. unfold ExactQ.ltb.
      assert (Hle : Qle_bool v v = true) by (apply Qle_bool_iff; apply Qle_refl).
      now rewrite Hle.
    + unfold glyphIndex, sparkRange.
      cbn [fdiv fsub fmul feqb of_int to_int exactQ]. cbv zeta.
      assert (Hz : Qeq_bool (v - v) (@fzero Q exactQ) = true)
        by (apply Qeq_bool_iff; change (@fzero Q exactQ) with 0%Q; ring).
      rewrite Hz.
      rewrite (to_int_of_integer _ 0); [reflexivity|].
      change (len chars - 1) with 7.
      change (inject_Z 1) with 1%Q. change (inject_Z 7) with 7%Q.
      change (inject_Z 0) with 0%Q. field.
  - intros m v Hnan Hinf Hh. apply (renderSparkline_flat v); [| |exact Hh].
    + apply SFltb_irrefl.
    + unfold glyphIndex, sparkRange.
      cbn [fdiv fsub fmul feqb of_int to_int binary64]. cbv zeta.
      rewrite (SFsub_self v Hnan Hinf). reflexivity.
Qed.

Lemma flat_history_renders_flat_witness :
  renderSparkline
    (mkDashboardModel (F := spec_float) (Server := unit) "btcusdt"%string
       "Bitcoin (BTC)"%string "BTC"%string zeroPriceData
       (repeat (B64.of_int 100) 3) tt false)
  = Some (repeat (RenderRune valueStyle 0x2581) 3).
Proof.
  apply (proj2 (flat_history_renders_flat (Server := unit) 1)
           _ (B64.of_int 100)).
  - discriminate.
  - discriminate.
  - reflexivity.
Defined.

(** ** Sparkline: the range found, in IEEE double precision *)

Section MinMaxOrder.
Context {F : Type} `{Float64Ops F}.
Variable ordered : F -> Prop.
Variable le : F -> F -> Prop.
Hypothesis le_refl : forall x, ordered x -> le x x.
Hypothesis le_trans : forall x y z, le x y -> le y z -> le x z.
Hypothesis fltb_le : forall x y, fltb x y = true -> le x y.
Hypothesis not_fltb_le :
  forall x y, ordered x -> ordered y -> fltb x y = false -> le y x.

Lemma minmax_fold_bracket (h : list F) (mn mx : F) :
  ordered mn -> ordered mx -> Forall ordered h ->
  let r := fold_left minmaxStep h (mn, mx) in
  le (fst r) mn /\ le mx (snd r) /\
  Forall (fun v => le (fst r) v /\ le v (snd r)) h.
Proof.
  revert mn mx. induction h as [|v h IH]; intros mn mx Hmn Hmx Hh; cbv zeta.
  - cbn. repeat split; auto.
  - inversion Hh as [|? ? Hv Hh']; subst. cbn [fold_left minmaxStep].
    set (mn' := if fltb v mn then v else mn).
    set (mx' := if fltb mx v then v else mx).
    assert (Hmn' : ordered mn' /\ le mn' mn /\ le mn' v).
    { unfold mn'. destruct (fltb v mn) eqn:Hlt; auto. }
    assert (Hmx' : ordered mx' /\ le mx mx' /\ le v mx').
    { unfold mx'. destruct (fltb mx v) eqn:Hlt; auto. }
    destruct Hmn' as (Ho1 & Hl1 & Hl2). destruct Hmx' as (Ho2 & Hg1 & Hg2).
    destruct (IH mn' mx' Ho1 Ho2 Hh') as (H1 & H2 & H3).
    repeat split; eauto.
Qed.

End MinMaxOrder.

Section SparklineMinMax.
Context {Server : Type}.
Import B64Num.

Lemma zero_over_range (s : bool) (rang : spec_float) :
  rang <> S754_nan -> SFeqb rang (S754_zero false) = false ->
  B64.to_int (SFmul B64.prec B64.emax
                (SFdiv B64.prec B64.emax (S754_zero s) rang) (B64.of_int 7))
  = 0.
Proof.
  intros Hnan Hz. destruct rang as [sr|sr| |sr mr er]; try reflexivity.
  - now destruct sr.
  - now contradiction Hnan.
Qed.

Lemma SFsub_not_nan (x y : spec_float) :
  isDouble x -> isDouble y ->
  x <> S754_nan -> y <> S754_nan -> (forall s, y <> S754_infinity s) ->
  SFsub B64.prec B64.emax x y <> S754_nan.
Proof.
  intros Hx Hy Hxn Hyn Hyi.
  destruct x as [sx|sx| |sx mx ex], y as [sy|sy| |sy my ey];
    try congruence; try (now contradiction (Hyi sy));
    try (destruct sx, sy; discriminate); try discriminate.
  rewrite B64Sub.SFsub_scaled.
  destruct (B64Sub.double_mantissa _ _ _ Hx) as (_ & Hex & _).
  destruct (B64Sub.double_mantissa _ _ _ Hy) as (_ & Hey & _).
  set (z := scaled sx mx ex (Z.min ex ey) - scaled sy my ey (Z.min ex ey)).
  destruct (Z.eq_dec z 0) as [Hz|Hz].
  - rewrite Hz. discriminate.
  - destruct (B64Round.binary_normalize_signed z (Z.min ex ey)
                ltac:(lia) Hz) as [(m & e & ->)| ->]; discriminate.
Qed.

(** X17: in IEEE double precision, on a history of two or more doubles
    none of which is NaN, the minimum and the maximum that
    [renderSparkline] finds are entries of the history and every entry lies
    between them; and when the minimum is finite it is drawn with the
    lowest glyph (index 0). *)
Theorem sparkline_spans_range (m : dashboardModel (F := spec_float) Server)
        (h0 h1 : spec_float) (rest : list spec_float) :
  history m = h0 :: h1 :: rest ->
  Forall (fun v => v <> S754_nan /\ isDouble v) (history m) ->
  let mn := fst (minmax h0 (history m)) in
  let mx := snd (minmax h0 (history m)) in
  In mn (history m) /\ In mx (history m) /\
  Forall (fun v => SFleb mn v = true /\ SFleb v mx = true) (history m) /\
  ((forall s, mn <> S754_infinity s) ->
     glyphIndex mn (sparkRange mn mx) mn = 0).
Proof.
  intros Hh Hall. cbv zeta. rewrite Hh in *.
  pose proof (minmax_fold_In (h0 :: h1 :: rest) h0 h0) as HIn.
  cbv zeta in HIn. fold (minmax h0 (h0 :: h1 :: rest)) in HIn.
  assert (Hnn : Forall B64Order.notNaN (h0 :: h1 :: rest)).
  { eapply Forall_impl; [|exact Hall]. cbv beta. now intros v [Hv _]. }
  assert (Hh0 : B64Order.notNaN h0) by now inversion Hnn.
  pose proof (@minmax_fold_bracket spec_float binary64
                B64Order.notNaN B64Order.le B64OrderFacts.le_refl
                B64OrderFacts.le_trans B64OrderFacts.fltb_le
                B64OrderFacts.not_fltb_le (h0 :: h1 :: rest) h0 h0
                Hh0 Hh0 Hnn) as Hbr.
  cbv zeta in Hbr. fold (minmax h0 (h0 :: h1 :: rest)) in Hbr.
  set (mn := fst (minmax h0 (h0 :: h1 :: rest))) in *.
  set (mx := snd (minmax h0 (h0 :: h1 :: rest))) in *.
  destruct HIn as [Hmn Hmx]. destruct Hbr as (_ & _ & Hbr).
  assert (Hmn' : In mn (h0 :: h1 :: rest))
    by (destruct Hmn as [<-|Hmn]; [now left|exact Hmn]).
  assert (Hmx' : In mx (h0 :: h1 :: rest))
    by (destruct Hmx as [<-|Hmx]; [now left|exact Hmx]).
  split; [exact Hmn'|]. split; [exact Hmx'|]. split; [exact Hbr|].
  intros Hfin.
  rewrite Forall_forall in Hall.
  destruct (Hall mn Hmn') as [Hmnn Hmnd]. destruct (Hall mx Hmx') as [Hmxn Hmxd].
  unfold glyphIndex, sparkRange.
  cbn [fdiv fsub fmul feqb of_int to_int binary64]. cbv zeta.
  change (@fzero spec_float binary64) with (S754_zero false).
  rewrite (SFsub_self mn Hmnn Hfin).
  change (len chars - 1) with 7. change (len chars) with 8.
  destruct (SFeqb (SFsub B64.prec B64.emax mx mn) (S754_zero false)) eqn:Hz.
  - reflexivity.
  - rewrite zero_over_range; [reflexivity| |exact Hz].
    now apply SFsub_not_nan.
Qed.

End SparklineMinMax.

Lemma sparkline_spans_range_witness :
  glyphIndex (B64.of_int 95) (sparkRange (B64.of_int 95) (B64.of_int 110))
             (B64.of_int 95) = 0.
Proof.
  apply (proj2 (proj2 (proj2 (sparkline_spans_range
    (mkDashboardModel (Server := unit) "btcusdt"%string "Bitcoin (BTC)"%string
       "BTC"%string zeroPriceData (map B64.of_int [100; 105; 95; 110]) tt false)
    (B64.of_int 100) (B64.of_int 105) (map B64.of_int [95; 110]) eq_refl
    ltac:(repeat constructor; try discriminate; reflexivity))))).
  discriminate.
Defined.

(** ** The dashboard view *)

Section ViewProperties.
Context {F : Type} `{Float64Ops F} {Server : Type}.


End ViewProperties.


(** ** Coin look-ups: telling a known symbol from an unknown one *)

(** X22: [GetCoinName] and [GetCoinShort] return their argument unchanged
    exactly for the symbols that are not in the table: for a symbol of the
    table neither result equals the symbol. *)
Theorem lookup_echoes_only_unknown (sym : string) :
  (GetCoinName sym = sym <-> forall c, In c coins -> symbol c <> sym) /\
  (GetCoinShort sym = sym <-> forall c, In c coins -> symbol c <> sym).
Proof.
  assert (Hdec : (exists c, In c coins /\ symbol c = sym) \/
                 (forall c, In c coins -> symbol c <> sym)).
  { destruct (in_dec string_dec sym (map symbol coins)) as [Hin|Hout].
    - left. apply in_map_iff in Hin as (c & Hc & Hin). now exists c.
    - right. intros c Hc Heq. apply Hout. rewrite <- Heq. now apply in_map. }
  destruct Hdec as [(c & Hin & <-)|Hno].
  - destruct (GetCoin_lookup_hit c Hin) as ((Hn & Hs) & Hne1 & Hne2).
    rewrite Hn, Hs. split; split; intros Hx.
    + now contradiction Hne1.
    + now contradiction (Hx c Hin).
    + now contradiction Hne2.
    + now contradiction (Hx c Hin).
  - unfold GetCoinName, GetCoinShort.
    rewrite !(lookupCoin_miss _ _ _ Hno). tauto.
Qed.

Section IndicatorDirection.
Context {Server : Type}.
Import B64Num.

(** X21: in IEEE double precision, the change indicator of the view after
    a price update shows the direction of the move: for doubles with the
    previous price above zero it shows up exactly when the new price is
    above the previous one, down exactly when it is below, and unchanged
    otherwise (equal prices, or a price that is NaN); when the previous
    price is not above zero, as on the first update, it shows unchanged
    whatever the new price. *)
Theorem indicator_shows_direction
        (captured m : dashboardModel (F := spec_float) Server) (r : Reading) :
  let prev := Price (data captured) in
  let shown :=
    shownDirection
      (changeStr (data (step m (priceMsg (fetchPrice captured r))))) in
  (isDouble prev -> isDouble (rPrice r) ->
   SFltb (S754_zero false) prev = true ->
     shown = if SFltb prev (rPrice r) then Some Up
             else if SFltb (rPrice r) prev then Some Down
             else Some Unchanged) /\
  (SFltb (S754_zero false) prev = false -> shown = Some Unchanged).
Proof.
  cbv zeta. rewrite step_priceMsg_data, fetchPrice_fields.
  unfold changeStr. cbn [Change fltb fsub binary64].
  change (@fzero spec_float binary64) with (S754_zero false).
  split.
  - intros Hprev Hprice Hpos. rewrite Hpos.
    destruct (B64Sub.SFsub_sign (rPrice r) (Price (data captured)) Hprice Hprev)
      as [Hup Hdown].
    cbv zeta in Hup, Hdown. rewrite Hup, Hdown.
    destruct (SFltb (Price (data captured)) (rPrice r)); [reflexivity|].
    destruct (SFltb (rPrice r) (Price (data captured))); reflexivity.
  - intros Hneg. rewrite Hneg. reflexivity.
Qed.

End IndicatorDirection.

Lemma indicator_shows_direction_witness :
  let captured : dashboardModel unit :=
    mkDashboardModel "btcusdt"%string "Bitcoin (BTC)"%string "BTC"%string
      (mkPriceData (B64.of_int 95) fzero fzero fzero fzero fzero fzero 7)
      [B64.of_int 95] tt false in
  shownDirection
    (changeStr (data (step captured (priceMsg
       (fetchPrice captured (mkReading (B64.of_int 110) fzero fzero fzero 8))))))
  = Some Up.
Proof.
  cbv zeta.
  etransitivity.
  - apply (proj1 (indicator_shows_direction
      (mkDashboardModel (Server := unit) "btcusdt"%string
         "Bitcoin (BTC)"%string "BTC"%string
         (mkPriceData (B64.of_int 95) fzero fzero fzero fzero fzero fzero 7)
         [B64.of_int 95] tt false)
      (mkDashboardModel (Server := unit) "btcusdt"%string
         "Bitcoin (BTC)"%string "BTC"%string
         (mkPriceData (B64.of_int 95) fzero fzero fzero fzero fzero fzero 7)
         [B64.of_int 95] tt false)
      (mkReading (B64.of_int 110) fzero fzero fzero 8))
      ltac:(reflexivity) ltac:(reflexivity) ltac:(reflexivity)).
  - reflexivity.
Defined.
